(** * operator-marketplace: the leader-gated lifecycle of [cmd/manager/main.go]

    A shallow embedding of the manager's entry point: flag handling and
    set-up ([main]), the per-episode sequencer (the [run] closure), the three
    leader-election callbacks, and the timing constants handed to the
    leader-election library.

    Calls into collaborators (logrus, controller-runtime, client-go, the
    repository's [status], [defaults], [controller] packages) are recorded as
    events of a trace; what such a call answers is read from an environment
    record, one field per call site. *)

From Stdlib Require Import String Ascii List ZArith Bool Lia.
Import ListNotations.

Local Open Scope string_scope.
Local Open Scope list_scope.

(** ** Go values *)

(** A non-nil Go [error], kept as its message; a nil error is [None] of
    [option error]. *)
Definition error := string.

(** A Go [(T, error)] result. *)
Inductive result (T : Type) : Type :=
| Ok (v : T)
| Err (e : error).
Arguments Ok {T} v.
Arguments Err {T} e.

(** [fmt]'s ["prefix%s"] and ["prefix%ssuffix"] with a string argument. *)
Definition Sprintf (prefix arg suffix : string) : string :=
  (prefix ++ arg ++ suffix)%string.

(** ** logrus *)
Module Logrus.

Inductive Level : Type :=
| PanicLevel | FatalLevel | ErrorLevel | WarnLevel
| InfoLevel | DebugLevel | TraceLevel.

Definition lower_ascii (c : ascii) : ascii :=
  let n := nat_of_ascii c in
  if (65 <=? n)%nat && (n <=? 90)%nat then ascii_of_nat (n + 32) else c.

Fixpoint ToLower (s : string) : string :=
  match s with
  | EmptyString => EmptyString
  | String c t => String (lower_ascii c) (ToLower t)
  end.

(** The level table of [logrus.ParseLevel], on ASCII input: the name is
    lower-cased and looked up; anything else is "not a valid logrus Level"
    (the message is kept without the quotes logrus puts around the value).
    [mainSetup] reads the parser from its environment; this is the instance
    used in examples. *)
Definition ParseLevel (lvl : string) : result Level :=
  let l := ToLower lvl in
  if l =? "panic" then Ok PanicLevel
  else if l =? "fatal" then Ok FatalLevel
  else if l =? "error" then Ok ErrorLevel
  else if (l =? "warn") || (l =? "warning") then Ok WarnLevel
  else if l =? "info" then Ok InfoLevel
  else if l =? "debug" then Ok DebugLevel
  else if l =? "trace" then Ok TraceLevel
  else Err (Sprintf "not a valid logrus Level: " lvl "").

End Logrus.
Export Logrus.

(** ** time *)
Module Time.

(** [time.Duration] is an [int64] count of nanoseconds. *)
Definition Duration := Z.

Definition Nanosecond : Duration := 1%Z.
Definition Microsecond : Duration := (1000 * Nanosecond)%Z.
Definition Millisecond : Duration := (1000 * Microsecond)%Z.
Definition Second : Duration := (1000 * Millisecond)%Z.

Definition int64_min : Z := (- 2 ^ 63)%Z.
Definition int64_max : Z := (2 ^ 63 - 1)%Z.
Definition in_int64 (d : Z) : Prop := (int64_min <= d <= int64_max)%Z.

End Time.

(** ** The constants of main.go *)

Definition defaultLeaderElectionConfigMapName : string := "marketplace-operator-lock".
Definition defaultRetryPeriod : Time.Duration := (30 * Time.Second)%Z.
Definition defaultRenewDeadline : Time.Duration := (60 * Time.Second)%Z.
Definition defaultLeaseDuration : Time.Duration := (90 * Time.Second)%Z.

(** ** Traces *)

(** The status reporter held by [run]'s [statusReporter] variable. *)
Inductive Reporter : Type :=
| NoOpReporter
| ClusterOperatorReporter (namespace name version : string).

(** The API groups registered by [setupScheme]. *)
Inductive SchemeGroup : Type :=
| MarketplaceApis | OlmV1alpha1 | CoreV1 | OpenShiftConfigV1.

(** The collaborator calls main.go makes. *)
Inductive Call : Type :=
| ServePrometheus (cert key : string)
| GetWatchNamespace
| GetConfig
| SetConfigAPIAvailability
| AddToScheme (g : SchemeGroup)
| NewManager
| HandleFunc (pattern : string)
| ListenAndServe (addr : string)
| SignalsContext
| WithCancel
| ManagerGetConfig
| NewForConfig
| Hostname
| NewRecorder (component : string)
| NewResourceLock (namespace name identity : string)
| NewReporter (namespace name version : string)
| PopulateGlobals
| AddToManager
| StartReporting (r : Reporter)
| ManagerStart
| Cancel
| ReleaseLock.

(** [Log] and [LogWithError] record a call of the logger at that level;
    whether the entry is written out depends on the level the logger was set
    to. *)
Inductive Event : Type :=
| Log (lvl : Level) (msg : string)
| LogWithError (lvl : Level) (err : error) (msg : string)
| Invoke (c : Call)
| ManagerStartReturned (err : option error)
| ReportingDoneReceived.

(** ** Process state

    The variables of [main] that its closures share and can write: the root
    context made by [context.WithCancel], the logger's level, and [main]'s
    [err] variable (which the set-up writes at each of its short variable
    declarations and [run] assigns when it builds the reporter). *)
Record Proc : Type := mkProc {
  rootCancelled : bool;
  loggerLevel : Level;
  errVar : option error;
}.

Definition initProc : Proc :=
  {| rootCancelled := false; loggerLevel := InfoLevel; errVar := None |}.

(** ** The effect monad: state, trace, and the ways a goroutine stops *)

Inductive Res (A : Type) : Type :=
| Ret (a : A)              (* the code ran to its end *)
| Exit (code : Z)          (* os.Exit *)
| Panic (msg : error)      (* an unrecovered panic *)
| Block.                   (* parked for ever on a call or a receive *)
Arguments Ret {A} a.
Arguments Exit {A} code.
Arguments Panic {A} msg.
Arguments Block {A}.

Definition M (A : Type) : Type := Proc -> list Event * Proc * Res A.

Definition ret {A} (a : A) : M A := fun p => ([], p, Ret a).

Definition bind {A B} (m : M A) (f : A -> M B) : M B :=
  fun p =>
    match m p with
    | (t, p', Ret a) =>
        match f a p' with
        | (t', p'', r) => (t ++ t', p'', r)
        end
    | (t, p', Exit c) => (t, p', Exit c)
    | (t, p', Panic e) => (t, p', Panic e)
    | (t, p', Block) => (t, p', Block)
    end.

Notation "x <- m ;; k" := (bind m (fun x => k))
  (at level 61, m at next level, right associativity).
Notation "m ;; k" := (bind m (fun _ => k))
  (at level 61, right associativity).

Definition emit (e : Event) : M unit := fun p => ([e], p, Ret tt).
Definition invoke (c : Call) : M unit := emit (Invoke c).
Definition get : M Proc := fun p => ([], p, Ret p).
Definition osExit {A} (code : Z) : M A := fun p => ([], p, Exit code).
Definition panic {A} (e : error) : M A := fun p => ([], p, Panic e).
Definition block {A} : M A := fun p => ([], p, Block).

Definition trace {A} (x : list Event * Proc * Res A) : list Event := fst (fst x).
Definition final {A} (x : list Event * Proc * Res A) : Proc := snd (fst x).
Definition outcome {A} (x : list Event * Proc * Res A) : Res A := snd x.

(** The exit status the operating system sees. Go ends a panicking program
    with status 2; a goroutine parked for ever produces none. *)
Definition exitStatus {A} (r : Res A) : option Z :=
  match r with
  | Ret _ => Some 0%Z
  | Exit c => Some c
  | Panic _ => Some 2%Z
  | Block => None
  end.

(** logger.Info / Warn / Error and their f-variants. *)
Definition logInfo (msg : string) : M unit := emit (Log InfoLevel msg).
Definition logWarn (msg : string) : M unit := emit (Log WarnLevel msg).
Definition logError (msg : string) : M unit := emit (Log ErrorLevel msg).

(** logger.Fatal: the entry is logged, then logrus calls [os.Exit(1)]. *)
Definition logFatal {A} (msg : string) : M A :=
  emit (Log FatalLevel msg) ;; osExit 1%Z.

(** utilruntime.Must *)
Definition Must (e : option error) : M unit :=
  match e with
  | Some err => panic err
  | None => ret tt
  end.

(** Go's [s != ""]. *)
Definition nonEmpty (s : string) : bool := negb (s =? "").

(** [if err != nil { logger.Fatal(err) }] *)
Definition fatalIf (e : option error) : M unit :=
  match e with
  | Some err => logFatal err
  | None => ret tt
  end.

(** logger.SetLevel *)
Definition SetLevel (l : Level) : M unit :=
  fun p => ([], {| rootCancelled := rootCancelled p;
                   loggerLevel := l;
                   errVar := errVar p |}, Ret tt).

(** The assignment to [main]'s [err] made inside [run]. *)
Definition assignErr (e : option error) : M unit :=
  fun p => ([], {| rootCancelled := rootCancelled p;
                   loggerLevel := loggerLevel p;
                   errVar := e |}, Ret tt).

(** [cancel()], the CancelFunc of the root context: the context is done from
    then on; further calls change nothing. *)
Definition cancel : M unit :=
  fun p => ([Invoke Cancel], {| rootCancelled := true;
                                loggerLevel := loggerLevel p;
                                errVar := errVar p |}, Ret tt).

(** ** The subsystem sequencer: the [run] closure *)

(** A receive-only [chan struct{}] used as a completion signal: nothing is
    ever sent on it, so a receive completes exactly when the channel gets
    closed. *)
Record DoneCh : Type := { closes : bool }.

(** [<-ch] *)
Definition recv (ch : DoneCh) : M unit :=
  if closes ch then emit ReportingDoneReceived else block.

(** What the collaborators answer during one call of [run]. *)
Record EpisodeEnv : Type := {
  newReporterErr : option error;          (* status.NewReporter *)
  populateGlobalsErr : option error;      (* defaults.PopulateGlobals *)
  addToManagerErr : option error;         (* controller.AddToManager *)
  managerStart : option (option error);   (* mgr.Start; [None]: it never returns *)
  reporterDone : bool;                    (* the reporter closes its channel *)
}.

(** Modelled from the spec: [status.NoOpReporter.StartReporting], of the
    repository's package [status], which is not among the sources. The spec
    (4.3) has "a no-op reporter that is considered immediately idle": the
    completion signal it hands out is already given. *)
Definition NoOpReporter_StartReporting : DoneCh := {| closes := true |}.

(** [statusReporter.StartReporting()], by dynamic dispatch on the reporter. *)
Definition StartReportingOn (r : Reporter) (w : EpisodeEnv) : M DoneCh :=
  invoke (StartReporting r) ;;
  match r with
  | NoOpReporter => ret NoOpReporter_StartReporting
  | ClusterOperatorReporter _ _ _ => ret {| closes := reporterDone w |}
  end.

(** [mgr.Start(ctx)] *)
Definition mgrStart (w : EpisodeEnv) : M (option error) :=
  invoke ManagerStart ;;
  match managerStart w with
  | Some r => emit (ManagerStartReturned r) ;; ret r
  | None => block
  end.

Section Run.

(** Variables of [main] the closure reads. The context the closure is given
    shows only through what [mgr.Start] and the reporter do with it, which
    is part of [w]. *)
Variables (clusterOperatorName namespace releaseVersion : string).

Definition run (w : EpisodeEnv) : M unit :=
  logInfo "registering components" ;;
  statusReporter <-
    (if nonEmpty clusterOperatorName then
       logInfo "setting up the marketplace clusteroperator status reporter" ;;
       invoke (NewReporter namespace clusterOperatorName releaseVersion) ;;
       assignErr (newReporterErr w) ;;
       fatalIf (newReporterErr w) ;;
       ret (ClusterOperatorReporter namespace clusterOperatorName releaseVersion)
     else
       ret NoOpReporter) ;;
  invoke PopulateGlobals ;;
  fatalIf (populateGlobalsErr w) ;;
  logInfo "setting up controllers" ;;
  invoke AddToManager ;;
  fatalIf (addToManagerErr w) ;;
  logInfo "starting the marketplace clusteroperator status reporter" ;;
  statusReportingDoneCh <- StartReportingOn statusReporter w ;;
  logInfo "starting manager" ;;
  err <- mgrStart w ;;
  match err with
  | Some e => emit (LogWithError ErrorLevel e "unable to run manager")
  | None => ret tt
  end ;;
  recv statusReportingDoneCh.

(** ** The leader-election callbacks *)

Variable id : string.

Definition OnStartedLeading (w : EpisodeEnv) : M unit :=
  logInfo (Sprintf "became leader: " id "") ;;
  run w.

Definition OnStoppedLeading : M unit :=
  logWarn (Sprintf "leader election lost for " id " identity") ;;
  cancel.

Definition OnNewLeader (identity : string) : M unit :=
  if identity =? id then ret tt
  else logInfo (Sprintf "current leader: " identity "").

End Run.

(** ** Process bootstrap: [main] *)

(** The command line, after [flag.Parse]. *)
Record Flags : Type := {
  clusterOperatorName : string;
  defaultsDir : string;
  version : bool;
  tlsKeyPath : string;
  tlsCertPath : string;
  leaderElectionNamespace : string;
  loglvl : string;
}.

(** The flag defaults declared in [main]. *)
Definition defaultFlags : Flags := {|
  clusterOperatorName := "";
  defaultsDir := "";
  version := false;
  tlsKeyPath := "";
  tlsCertPath := "";
  leaderElectionNamespace := "openshift-marketplace";
  loglvl := "info";
|}.

(** What the environment and the collaborators answer during set-up. *)
Record Env : Type := {
  goVersion : string;                          (* runtime.Version() *)
  goOS : string;
  goArch : string;
  sourceCommit : string;                       (* sourceCommit.String() *)
  parseLevel : string -> result Level;         (* logrus.ParseLevel *)
  POD_NAME : string;                           (* os.Getenv; "" when unset *)
  RELEASE_VERSION : string;
  servePrometheus : option error;              (* metrics.ServePrometheus *)
  getWatchNamespace : result string;           (* apiutils.GetWatchNamespace *)
  getConfig : option error;                    (* config.GetConfig *)
  setConfigAPIAvailability : option error;     (* configv1.SetConfigAPIAvailability *)
  isAPIAvailable : bool;                       (* configv1.IsAPIAvailable *)
  addToScheme : SchemeGroup -> option error;   (* the AddToScheme functions *)
  newManager : option error;                   (* manager.New *)
  newForConfig : option error;                 (* kubernetes.NewForConfig *)
  hostname : result string;                    (* os.Hostname *)
  newResourceLock : option error;              (* resourcelock.New *)
}.

(** The fields of [leaderelection.LeaderElectionConfig] that [main] sets,
    with the lock flattened to what [resourcelock.New] was given. *)
Record LeaderElectionConfig : Type := {
  LockNamespace : string;
  LockName : string;
  Identity : string;
  ReleaseOnCancel : bool;
  LeaseDuration : Time.Duration;
  RenewDeadline : Time.Duration;
  RetryPeriod : Time.Duration;
}.

(** What [main] has in hand when it calls [leaderelection.RunOrDie]. *)
Record Handoff : Type := {
  lec : LeaderElectionConfig;
  watchNamespace : string;
}.

Definition printVersion (e : Env) : M unit :=
  logInfo (Sprintf "Go Version: " (goVersion e) "") ;;
  logInfo (Sprintf "Go OS/Arch: " (goOS e) (Sprintf "/" (goArch e) "")).

Definition setupScheme (e : Env) : M unit :=
  invoke (AddToScheme MarketplaceApis) ;;
  Must (addToScheme e MarketplaceApis) ;;
  invoke (AddToScheme OlmV1alpha1) ;;
  Must (addToScheme e OlmV1alpha1) ;;
  invoke (AddToScheme CoreV1) ;;
  Must (addToScheme e CoreV1) ;;
  if isAPIAvailable e then
    invoke (AddToScheme OpenShiftConfigV1) ;;
    Must (addToScheme e OpenShiftConfigV1)
  else ret tt.

(** The error half of a [(T, error)] result. *)
Definition errOf {T} (r : result T) : option error :=
  match r with
  | Ok _ => None
  | Err err => Some err
  end.

(** Lines 195-202: the identity of this process. [id, err = os.Hostname()]
    writes [main]'s [err]. *)
Definition resolveIdentity (e : Env) : M string :=
  let id := POD_NAME e in
  if id =? "" then
    logWarn "failed to determine $POD_NAME falling back to hostname" ;;
    invoke Hostname ;;
    assignErr (errOf (hostname e)) ;;
    match hostname e with
    | Ok h => ret h
    | Err err => logFatal err
    end
  else ret id.

(** What [flag.Parse] (line 85) makes of the command line. The flags are
    registered on the default flag set, which is [flag.ExitOnError]: a
    command line it refuses ends the process with status 2 inside
    [flag.Parse], and a request for help ([-h], [-help]) with status 0. *)
Inductive CommandLine : Type :=
| FlagsParsed (f : Flags)
| HelpRequested
| FlagsRefused.

Definition flagParse (c : CommandLine) : M Flags :=
  match c with
  | FlagsParsed f => ret f
  | HelpRequested => osExit 0%Z
  | FlagsRefused => osExit 2%Z
  end.

(** Lines 86-210: [main] from the creation of the logger to the call of
    [leaderelection.RunOrDie], on the flags [flag.Parse] returned. The
    short variable declarations of lines 89, 108, 114, 136, 190 and 204
    write [main]'s [err] (those of lines 104 and 120 declare an [err] of
    their own). *)
Definition setupAfterFlags (f : Flags) (e : Env) : M Handoff :=
  assignErr (errOf (parseLevel e (loglvl f))) ;;
  parsedLevel <-
    match parseLevel e (loglvl f) with
    | Ok l => ret l
    | Err err => logError err ;; osExit 1%Z
    end ;;
  SetLevel parsedLevel ;;
  (if version f then
     logInfo (Sprintf "" (sourceCommit e) "") ;; osExit 0%Z
   else ret tt) ;;
  invoke (ServePrometheus (tlsCertPath f) (tlsKeyPath f)) ;;
  match servePrometheus e with
  | Some err => logFatal (Sprintf "failed to serve prometheus metrics: " err "")
  | None => ret tt
  end ;;
  invoke GetWatchNamespace ;;
  assignErr (errOf (getWatchNamespace e)) ;;
  namespace <-
    match getWatchNamespace e with
    | Ok ns => ret ns
    | Err err => logFatal (Sprintf "failed to get watch namespace: " err "")
    end ;;
  invoke GetConfig ;;
  assignErr (getConfig e) ;;
  fatalIf (getConfig e) ;;
  invoke SetConfigAPIAvailability ;;
  fatalIf (setConfigAPIAvailability e) ;;
  logInfo "setting up scheme" ;;
  setupScheme e ;;
  invoke NewManager ;;
  assignErr (newManager e) ;;
  fatalIf (newManager e) ;;
  logInfo "setting up health checks" ;;
  invoke (HandleFunc "/healthz") ;;
  invoke (ListenAndServe ":8080") ;;
  invoke SignalsContext ;;
  invoke WithCancel ;;
  invoke ManagerGetConfig ;;
  invoke NewForConfig ;;
  assignErr (newForConfig e) ;;
  match newForConfig e with
  | Some err =>
      logFatal (Sprintf "failed to initialize the kubernetes clientset: " err "")
  | None => ret tt
  end ;;
  id <- resolveIdentity e ;;
  invoke (NewRecorder id) ;;
  invoke (NewResourceLock (leaderElectionNamespace f)
                          defaultLeaderElectionConfigMapName id) ;;
  assignErr (newResourceLock e) ;;
  fatalIf (newResourceLock e) ;;
  ret {| lec := {| LockNamespace := leaderElectionNamespace f;
                   LockName := defaultLeaderElectionConfigMapName;
                   Identity := id;
                   ReleaseOnCancel := true;
                   LeaseDuration := defaultLeaseDuration;
                   RenewDeadline := defaultRenewDeadline;
                   RetryPeriod := defaultRetryPeriod |};
         watchNamespace := namespace |}.

(** [main] up to the call of [leaderelection.RunOrDie], when [flag.Parse]
    returns with the flags [f]. *)
Definition mainSetup (f : Flags) (e : Env) : M Handoff :=
  printVersion e ;;
  setupAfterFlags f e.

(** [main] up to the call of [leaderelection.RunOrDie], from the command
    line on: lines 68-210. *)
Definition mainBootstrap (c : CommandLine) (e : Env) : M Handoff :=
  printVersion e ;;
  f <- flagParse c ;;
  setupAfterFlags f e.

(** [defer d] in front of [body]: [d] runs when [body] returns and when it
    panics, but not when the process exits or the goroutine stays parked. *)
Definition deferring {A} (d : M unit) (body : M A) : M A :=
  fun p =>
    match body p with
    | (t, p', Ret a) =>
        match d p' with (t', p'', _) => (t ++ t', p'', Ret a) end
    | (t, p', Panic e) =>
        match d p' with (t', p'', _) => (t ++ t', p'', Panic e) end
    | (t, p', Exit c) => (t, p', Exit c)
    | (t, p', Block) => (t, p', Block)
    end.

(** [main]: set-up, then the leader-election loop [RunOrDie] of client-go
    (a parameter here) under the deferred [cancel()]. The set-up calls that
    follow the [defer] statement in the source all end in [os.Exit] when they
    fail, which skips deferred calls, so the [defer] matters around RunOrDie
    only. *)
Definition main (RunOrDie : Handoff -> M unit) (f : Flags) (e : Env) : M unit :=
  h <- mainSetup f e ;;
  deferring cancel (RunOrDie h).

(** An environment in which every set-up call succeeds. *)
Definition okEnv : Env := {|
  goVersion := "go1.19"; goOS := "linux"; goArch := "amd64";
  sourceCommit := "unknown";
  parseLevel := Logrus.ParseLevel;
  POD_NAME := "pod-A";
  RELEASE_VERSION := "";
  servePrometheus := None;
  getWatchNamespace := Ok "openshift-marketplace";
  getConfig := None;
  setConfigAPIAvailability := None;
  isAPIAvailable := true;
  addToScheme := fun _ => None;
  newManager := None;
  newForConfig := None;
  hostname := Ok "host-A";
  newResourceLock := None;
|}.

(** Modelled from the spec: the start-up check of the timing parameters made
    by [leaderelection.RunOrDie], which is not among the sources. The spec
    (8): "configuring lease duration <= renew deadline must be rejected or
    corrected at startup"; rejection is modelled, as the error RunOrDie dies
    of. *)
Definition validateTiming (c : LeaderElectionConfig) : option error :=
  if (LeaseDuration c <=? RenewDeadline c)%Z
  then Some "leaseDuration must be greater than renewDeadline"
  else None.

(** Modelled from the spec: [leaderelection.RunOrDie] at start-up, which
    dies (panics) on a rejected configuration before any acquisition
    attempt, and otherwise goes on to the election [loop]. *)
Definition RunOrDie_startup (loop : Handoff -> M unit) (h : Handoff) : M unit :=
  match validateTiming (lec h) with
  | Some err => panic err
  | None => loop h
  end.

(** * Observations on traces and environments *)

(** ** Order of events in a trace *)

Definition isStartReporting (e : Event) : bool :=
  match e with Invoke (StartReporting _) => true | _ => false end.
Definition isManagerStart (e : Event) : bool :=
  match e with Invoke ManagerStart => true | _ => false end.
Definition isManagerStartReturned (e : Event) : bool :=
  match e with ManagerStartReturned _ => true | _ => false end.
Definition isDoneReceived (e : Event) : bool :=
  match e with ReportingDoneReceived => true | _ => false end.
Definition isFatalLog (e : Event) : bool :=
  match e with Log FatalLevel _ => true | _ => false end.
Definition isNewReporter (e : Event) : bool :=
  match e with Invoke (NewReporter _ _ _) => true | _ => false end.
Definition isCancel (e : Event) : bool :=
  match e with Invoke Cancel => true | _ => false end.

(** Every event satisfying [q] has an event satisfying [p] strictly before
    it in the trace. *)
Definition precedes (p q : Event -> bool) (l : list Event) : Prop :=
  forall pre x post,
    l = pre ++ x :: post -> q x = true ->
    exists y, In y pre /\ p y = true.

(** The same, decided by one pass that remembers whether [p] was seen. *)
Fixpoint precedesFrom (p q : Event -> bool) (seen : bool) (l : list Event) : bool :=
  match l with
  | [] => true
  | x :: rest =>
      (if q x then seen else true) && precedesFrom p q (seen || p x) rest
  end.

Definition precedesb (p q : Event -> bool) (l : list Event) : bool :=
  precedesFrom p q false l.

(** The number of events of a trace that satisfy [p]. *)
Definition occurrences (p : Event -> bool) (l : list Event) : nat :=
  length (filter p l).

(** ** Environments of an episode *)

(** The three registration steps of [run] that are fatal on error all
    succeed. *)
Definition registrationOk (name : string) (w : EpisodeEnv) : bool :=
  match (if nonEmpty name then newReporterErr w else None),
        populateGlobalsErr w, addToManagerErr w with
  | None, None, None => true
  | _, _, _ => false
  end.

Definition lastEvent (l : list Event) : option Event :=
  match rev l with
  | [] => None
  | x :: _ => Some x
  end.

(** The trace from the first event satisfying [p] on. *)
Fixpoint fromFirst (p : Event -> bool) (l : list Event) : list Event :=
  match l with
  | [] => []
  | x :: rest => if p x then x :: rest else fromFirst p rest
  end.

(** The reporters on which [StartReporting] was called, in order. *)
Fixpoint startedReporters (l : list Event) : list Reporter :=
  match l with
  | [] => []
  | Invoke (StartReporting r) :: rest => r :: startedReporters rest
  | _ :: rest => startedReporters rest
  end.

(** Whether the completion signal of the reporter [run] starts ever comes. *)
Definition signalComes (name : string) (w : EpisodeEnv) : bool :=
  if nonEmpty name then reporterDone w else closes NoOpReporter_StartReporting.

(** [e] with the two sources of the identity replaced. *)
Definition withIdentitySources (pod : string) (h : result string) (e : Env) : Env :=
  {| goVersion := goVersion e; goOS := goOS e; goArch := goArch e;
     sourceCommit := sourceCommit e; parseLevel := parseLevel e;
     POD_NAME := pod; RELEASE_VERSION := RELEASE_VERSION e;
     servePrometheus := servePrometheus e;
     getWatchNamespace := getWatchNamespace e;
     getConfig := getConfig e;
     setConfigAPIAvailability := setConfigAPIAvailability e;
     isAPIAvailable := isAPIAvailable e;
     addToScheme := addToScheme e;
     newManager := newManager e;
     newForConfig := newForConfig e;
     hostname := h;
     newResourceLock := newResourceLock e |}.

(** Every collaborator call that [mainSetup] reaches succeeds. *)
Definition setupOk (e : Env) : bool :=
  match servePrometheus e, getWatchNamespace e, getConfig e,
        setConfigAPIAvailability e with
  | None, Ok _, None, None =>
      match addToScheme e MarketplaceApis, addToScheme e OlmV1alpha1,
            addToScheme e CoreV1,
            (if isAPIAvailable e then addToScheme e OpenShiftConfigV1 else None) with
      | None, None, None, None =>
          match newManager e, newForConfig e,
                (if POD_NAME e =? "" then hostname e else Ok (POD_NAME e)),
                newResourceLock e with
          | None, None, Ok _, None => true
          | _, _, _, _ => false
          end
      | _, _, _, _ => false
      end
  | _, _, _, _ => false
  end.


Ltac neutral x :=
  lazymatch x with
  | context [match _ with _ => _ end] => fail
  | _ => idtac
  end.

(** Case analysis on the next answer the code under scrutiny looks at. *)
Ltac setup_step :=
  match goal with
  | |- context [match ?x with _ => _ end] => neutral x; destruct x eqn:?
  | H : context [match ?x with _ => _ end] |- _ => neutral x; destruct x eqn:?
  end.

Ltac unfold_setup :=
  unfold mainSetup, setupAfterFlags, setupScheme, resolveIdentity,
    printVersion, setupOk, fatalIf, Must, logFatal, logInfo, logWarn, logError,
    invoke, emit, osExit, panic, SetLevel, assignErr, errOf, ret, bind,
    outcome, trace, final in *.

Ltac setup_cases :=
  unfold_setup;
  repeat (cbn [fst snd app] in *; setup_step; try discriminate);
  cbn [fst snd app] in *.

(** ** Case analysis on an episode's environment *)

Ltac run_cases name w :=
  destruct name as [|c0 name];
  destruct w as [[nr|] [pg|] [am|] [[ms|]|] [|]];
  cbn in *.

(** ** Further observations *)

(** The collaborator calls of a trace, in order. *)
Fixpoint calls (l : list Event) : list Call :=
  match l with
  | [] => []
  | Invoke c :: rest => c :: calls rest
  | _ :: rest => calls rest
  end.

(** The API groups whose registration was attempted, in order. *)
Fixpoint registeredGroups (l : list Event) : list SchemeGroup :=
  match l with
  | [] => []
  | Invoke (AddToScheme g) :: rest => g :: registeredGroups rest
  | _ :: rest => registeredGroups rest
  end.

(** The groups [setupScheme] sets out to register. *)
Definition wantedGroups (e : Env) : list SchemeGroup :=
  [MarketplaceApis; OlmV1alpha1; CoreV1]
  ++ (if isAPIAvailable e then [OpenShiftConfigV1] else []).

Definition lastGroup (l : list Event) : option SchemeGroup :=
  match rev (registeredGroups l) with
  | [] => None
  | g :: _ => Some g
  end.

Definition isPopulateGlobals (e : Event) : bool :=
  match e with Invoke PopulateGlobals => true | _ => false end.
Definition isAddToManager (e : Event) : bool :=
  match e with Invoke AddToManager => true | _ => false end.

(** ** The cluster-operator end-to-end specs *)
Module E2E.

(** The fields of [configv1.ClusterOperatorStatusCondition] the specs read;
    both are string types. *)
Record ClusterOperatorStatusCondition : Type := {
  Type_ : string;
  Status : string;
}.

(** [configv1.ObjectReference] *)
Record ObjectReference : Type := {
  Group : string;
  Resource : string;
  Namespace : string;
  Name : string;
}.

(** [co.Status], as far as the specs look at it. *)
Record ClusterOperator : Type := {
  Conditions : list ClusterOperatorStatusCondition;
  RelatedObjects : list ObjectReference;
}.

(** Go's [m[k]] on a map with string values: the value stored under [k],
    and the zero value, the empty string, when there is none. *)
Fixpoint mapIndex (m : list (string * string)) (k : string) : string :=
  match m with
  | [] => ""
  | (k', v) :: rest => if k' =? k then v else mapIndex rest k
  end.

(** Equality of two references as [reflect.DeepEqual] sees it: field by
    field. *)
Definition ObjectReference_eqb (a b : ObjectReference) : bool :=
  (Group a =? Group b) && (Resource a =? Resource b)
  && (Namespace a =? Namespace b) && (Name a =? Name b).

Section Specs.

(** The constants of openshift/api and operator-framework/api the specs
    name; their spelling is not in this repository. *)
Variables (OperatorUpgradeable OperatorProgressing
           OperatorAvailable OperatorDegraded : string).
Variables (ConditionTrue ConditionFalse : string).
Variable GroupName : string.

Definition expectedTypeStatus : list (string * string) :=
  [ (OperatorUpgradeable, ConditionTrue);
    (OperatorProgressing, ConditionFalse);
    (OperatorAvailable, ConditionTrue);
    (OperatorDegraded, ConditionFalse) ].

(** "Should contain the expected status conditions": [true] when the spec
    passes. [get] is what [k8sClient.Get] made of [co]; a failed [Expect]
    ends the spec. [co] is the address of a struct, so the expectation that
    it is not nil always holds. *)
Definition conditionsSpec (get : result ClusterOperator) : bool :=
  match get with
  | Err _ => false
  | Ok co =>
      forallb (fun cond => Status cond =? mapIndex expectedTypeStatus (Type_ cond))
              (Conditions co)
  end.

Definition expectedRelatedObjects : list ObjectReference :=
  [ {| Group := ""; Resource := "namespaces";
       Namespace := ""; Name := "openshift-marketplace" |};
    {| Group := GroupName; Resource := "catalogsources";
       Namespace := "openshift-marketplace"; Name := "" |} ].

(** "Should contain the correct related objects". [ContainElements] asks
    for a different element of the actual slice for each expected one; the
    two expected references differ in [Resource], so no element can serve
    for both and this is membership of each. *)
Definition relatedObjectsSpec (get : result ClusterOperator) : bool :=
  match get with
  | Err _ => false
  | Ok co =>
      forallb (fun want => existsb (ObjectReference_eqb want) (RelatedObjects co))
              expectedRelatedObjects
  end.

End Specs.

End E2E.

(** ** The callbacks as [main] builds them *)

(** [leaderelection.LeaderCallbacks]; the started-leading handler also takes
    what the collaborators answer during the episode. *)
Record LeaderCallbacks : Type := {
  onStartedLeading : EpisodeEnv -> M unit;
  onStoppedLeading : M unit;
  onNewLeader : string -> M unit;
}.

(** The three closures of lines 218-236, over the variables of [main] they
    capture: the clusterOperatorName flag, the watch namespace, the
    RELEASE_VERSION of the environment and the identity. *)
Definition callbacks (f : Flags) (e : Env) (h : Handoff) : LeaderCallbacks :=
  {| onStartedLeading :=
       OnStartedLeading (clusterOperatorName f) (watchNamespace h)
                        (RELEASE_VERSION e) (Identity (lec h));
     onStoppedLeading := OnStoppedLeading (Identity (lec h));
     onNewLeader := OnNewLeader (Identity (lec h)) |}.

(** ** The leadership state machine

    client-go's [leaderelection] package drives the callbacks; only its call
    site is in main.go. *)
Module Election.

(** Modelled from the spec: the states of the leadership state machine of
    [leaderelection.RunOrDie] (4.2): "Candidate -> Leading ->
    (Lost | Released) -> Candidate (terminal exit only on process
    shutdown)". [Shutdown] is that terminal exit. *)
Inductive State : Type := Candidate | Leading | Lost | Released | Shutdown.

(** Modelled from the spec: what reaches the machine of
    [leaderelection.RunOrDie] from outside. [Poll granted] is one poll cycle
    (4.2: "periodically"), in which the lock client would answer an
    [acquireOrRenew] with [granted] (4.1); [Signal] is SIGTERM or SIGINT
    reaching the signal-aware root of the context (4.4); [Observe owner] is
    a look at the lock record that finds [owner] in it (4.2, OnNewLeader). *)
Inductive Input : Type :=
| Poll (granted : bool)
| Signal
| Observe (owner : string).

(** Modelled from the spec: the bookkeeping of the machine of
    [leaderelection.RunOrDie]: its state (4.2), the count of episodes (8:
    "episode count increments by exactly one per acquisition"), how often
    the stopped-leading callback was fired, and the owner last observed. *)
Record Machine : Type := {
  state : State;
  episodes : nat;
  stopped : nat;
  observed : option string;
}.

Definition initMachine : Machine :=
  {| state := Candidate; episodes := 0; stopped := 0; observed := None |}.

Definition withState (s : State) (m : Machine) : Machine :=
  {| state := s; episodes := episodes m; stopped := stopped m;
     observed := observed m |}.

(** The parent of the root context is done: the root context is done with
    it, without any call of [cancel()]. *)
Definition interrupt : M unit :=
  fun p => ([], {| rootCancelled := true; loggerLevel := loggerLevel p;
                   errVar := errVar p |}, Ret tt).

Section Machine.

(** What [main] gives to RunOrDie: the configuration and the callbacks; and
    what the collaborators answer in the n-th episode. *)
Variable cfg : LeaderElectionConfig.
Variable cb : LeaderCallbacks.
Variable envOf : nat -> EpisodeEnv.

(** Modelled from the spec: the transition function of
    [leaderelection.RunOrDie] (9: "(current state, event) -> (next state,
    side effects)"), with the callbacks [main] registered as its side
    effects.
    - Candidate (4.2): "attempts acquireOrRenew. Transitions to Leading when
      granted", invoking OnStartedLeading "once per Leading episode". Once
      the root context is cancelled it makes no attempt and exits: the
      exit is "only on process shutdown" (4.2), and cancellation of the root
      context is the shutdown path (4.4: signals "trigger the same
      cancellation path as leadership loss"; 5: "cancelling the root context
      (signal, or leadership loss) propagates to every subsystem sharing
      that context"; 8: after the root context is cancelled the stopped
      callback is logged once and the process-level wait group unblocks).
    - Leading (4.2): "If a renewal succeeds, remains Leading. If a renewal
      fails to complete before the deadline ... transitions to Lost";
      Released is "reached only when the process's execution context is
      explicitly cancelled while Leading".
    - Lost (4.2): "fires the stopped leading callback exactly once,
      synchronously, before any new acquisition attempt is made; returns to
      Candidate".
    - Released (4.2): "if configured to release-on-cancel, best-effort
      releases the lock, then fires the stopped leading callback".
    - OnNewLeader (4.2): "invoked (including for self) whenever the observed
      owner of the lock record changes".
    The body of OnStartedLeading is put where its episode starts: the spec
    orders it only against the stopped-leading callback of the same episode,
    which fires after it (5: "the state machine serializes episodes"). If
    the body ends the process or never returns, so does the machine. *)
Definition step (m : Machine) (i : Input) : M Machine :=
  match i with
  | Signal => interrupt ;; ret m
  | Observe owner =>
      match state m, observed m with
      | Shutdown, _ => ret m
      | _, Some seen =>
          if seen =? owner then ret m
          else
            onNewLeader cb owner ;;
            ret {| state := state m; episodes := episodes m;
                   stopped := stopped m; observed := Some owner |}
      | _, None =>
          onNewLeader cb owner ;;
          ret {| state := state m; episodes := episodes m;
                 stopped := stopped m; observed := Some owner |}
      end
  | Poll granted =>
      p <- get ;;
      match state m with
      | Candidate =>
          if rootCancelled p then ret (withState Shutdown m)
          else if granted then
            onStartedLeading cb (envOf (S (episodes m))) ;;
            ret {| state := Leading; episodes := S (episodes m);
                   stopped := stopped m; observed := observed m |}
          else ret m
      | Leading =>
          if rootCancelled p then ret (withState Released m)
          else if granted then ret m
          else ret (withState Lost m)
      | Lost =>
          onStoppedLeading cb ;;
          ret {| state := Candidate; episodes := episodes m;
                 stopped := S (stopped m); observed := observed m |}
      | Released =>
          (if ReleaseOnCancel cfg then invoke ReleaseLock else ret tt) ;;
          onStoppedLeading cb ;;
          ret {| state := Candidate; episodes := episodes m;
                 stopped := S (stopped m); observed := observed m |}
      | Shutdown => ret m
      end
  end.

(** Modelled from the spec: the loop of [leaderelection.RunOrDie], as the
    transition function applied to what reaches it, in order. *)
Fixpoint drive (m : Machine) (inputs : list Input) : M Machine :=
  match inputs with
  | [] => ret m
  | i :: rest => m' <- step m i ;; drive m' rest
  end.

End Machine.

End Election.

(** The log entries of the two leadership callbacks. *)
Definition isBecameLeader (id : string) (e : Event) : bool :=
  match e with
  | Log InfoLevel msg => msg =? Sprintf "became leader: " id ""
  | _ => false
  end.
Definition isLostWarning (id : string) (e : Event) : bool :=
  match e with
  | Log WarnLevel msg => msg =? Sprintf "leader election lost for " id " identity"
  | _ => false
  end.

(** The bookkeeping of a machine that was started, as [initMachine], on a
    live root context: it has led at most once, the stopped-leading callback
    has been fired for every episode that is over and for no other, and it
    left the root context cancelled. *)
Definition coherent (m : Election.Machine) (p : Proc) : Prop :=
  Election.episodes m <= 1 /\
  match Election.state m with
  | Election.Candidate | Election.Shutdown =>
      Election.stopped m = Election.episodes m
  | Election.Leading | Election.Lost | Election.Released =>
      Election.episodes m = 1 /\ Election.stopped m = 0
  end /\
  (Election.stopped m = 1 -> rootCancelled p = true).

(** * Properties *)

(** ** Soundness of the order check *)

Lemma precedesFrom_sound (p q : Event -> bool) (l : list Event) :
  forall seen, precedesFrom p q seen l = true ->
  forall pre x post,
    l = pre ++ x :: post -> q x = true ->
    seen = true \/ exists y, In y pre /\ p y = true.
Proof.
  induction l as [|a l IH]; intros seen Hc pre x post Heq Hq.
  - destruct pre; discriminate.
  - cbn [precedesFrom] in Hc. apply andb_true_iff in Hc as [Hhead Htail].
    destruct pre as [|b pre]; cbn in Heq; injection Heq as <- ->.
    + rewrite Hq in Hhead. now left.
    + destruct (IH _ Htail pre x post eq_refl Hq) as [Hs | (y & Hin & Hp)].
      * apply orb_true_iff in Hs as [Hs | Hs]; [now left | right].
        exists a. split; [now left | exact Hs].
      * right. exists y. split; [now right | exact Hp].
Qed.

Lemma precedesb_sound (p q : Event -> bool) (l : list Event) :
  precedesb p q l = true -> precedes p q l.
Proof.
  intros Hc pre x post Heq Hq.
  destruct (precedesFrom_sound p q l false Hc pre x post Heq Hq) as [H | H];
    [discriminate | exact H].
Qed.

(** ** The sequencer *)

(** C1. In every leadership episode the body of OnStartedLeading calls
    StartReporting before it calls the blocking mgr.Start, receives from the
    reporter's completion channel only after mgr.Start has returned, and
    returns only once that receive has completed: when the body returns, the
    completion signal is the last thing it observed; while mgr.Start has not
    returned, the body does not return. *)
Theorem started_leading_sequencing :
  forall (name ns ver id : string) (w : EpisodeEnv) (p : Proc),
    let r := OnStartedLeading name ns ver id w p in
    precedes isStartReporting isManagerStart (trace r) /\
    precedes isManagerStart isManagerStartReturned (trace r) /\
    precedes isManagerStartReturned isDoneReceived (trace r) /\
    (outcome r = Ret tt -> lastEvent (trace r) = Some ReportingDoneReceived) /\
    (registrationOk name w = true ->
       occurrences isStartReporting (trace r) = 1 /\
       occurrences isManagerStart (trace r) = 1 /\
       (managerStart w = None -> outcome r = Block) /\
       (managerStart w <> None ->
          occurrences isDoneReceived (trace r) = (if signalComes name w then 1 else 0)
          /\ outcome r = (if signalComes name w then Ret tt else Block))).
Proof.
  intros name ns ver id w p r; subst r.
  repeat split; try (apply precedesb_sound);
    run_cases name w; intros;
    try reflexivity; try discriminate; try congruence.
Qed.

(** C1, on an episode whose manager returns and whose reporter closes its
    channel. *)
Lemma started_leading_sequencing_witness :
  let w := {| newReporterErr := None; populateGlobalsErr := None;
              addToManagerErr := None; managerStart := Some None;
              reporterDone := true |} in
  let r := OnStartedLeading "marketplace" "openshift-marketplace" "4.12" "pod-A"
             w initProc in
  precedes isStartReporting isManagerStart (trace r) /\
  precedes isManagerStartReturned isDoneReceived (trace r) /\
  lastEvent (trace r) = Some ReportingDoneReceived.
Proof.
  intros w r.
  destruct (started_leading_sequencing "marketplace" "openshift-marketplace"
              "4.12" "pod-A" w initProc) as (H1 & _ & H3 & H4 & _).
  split; [exact H1 | split; [exact H3 | apply H4; reflexivity]].
Defined.

(** C5. When defaults.PopulateGlobals fails during an episode, the episode
    body does not return: the process exits with status 1 (logger.Fatal),
    the manager is never started, and, when the reporter had been set up, the
    last thing logged is that error at fatal level. *)
Theorem populate_globals_failure_is_fatal :
  forall (name ns ver id : string) (w : EpisodeEnv) (p : Proc) (err : error),
    populateGlobalsErr w = Some err ->
    let r := OnStartedLeading name ns ver id w p in
    outcome r = Exit 1%Z /\
    exitStatus (outcome r) <> Some 0%Z /\
    outcome r <> Ret tt /\
    occurrences isManagerStart (trace r) = 0 /\
    occurrences isStartReporting (trace r) = 0 /\
    ((if nonEmpty name then newReporterErr w else None) = None ->
       lastEvent (trace r) = Some (Log FatalLevel err)).
Proof.
  intros name ns ver id w p err Hpg r; subst r.
  run_cases name w; try discriminate; injection Hpg as ->;
    repeat split; intros; try reflexivity; try discriminate.
Qed.

Lemma populate_globals_failure_is_fatal_witness :
  let w := {| newReporterErr := None;
              populateGlobalsErr := Some "defaults directory unreadable";
              addToManagerErr := None; managerStart := Some None;
              reporterDone := true |} in
  populateGlobalsErr w = Some "defaults directory unreadable" /\
  outcome (OnStartedLeading "marketplace" "openshift-marketplace" "4.12"
             "pod-A" w initProc) = Exit 1%Z.
Proof.
  intros w. split; [reflexivity | ].
  apply (populate_globals_failure_is_fatal "marketplace" "openshift-marketplace"
           "4.12" "pod-A" w initProc "defaults directory unreadable").
  reflexivity.
Defined.

(** C6. With an empty clusterOperatorName, [run] never calls
    status.NewReporter and the reporter it starts is the no-op one; with a
    non-empty name it calls status.NewReporter once, with that name, and the
    reporter it starts is the one so built; if building it fails the process
    exits with status 1 and no reporter is started. The reporter is started
    exactly when the registration steps before StartReporting succeed. *)
Theorem run_reporter_choice :
  forall (name ns ver : string) (w : EpisodeEnv) (p : Proc),
    let r := run name ns ver w p in
    (name = "" ->
       occurrences isNewReporter (trace r) = 0 /\
       startedReporters (trace r) =
         (if registrationOk name w then [NoOpReporter] else [])) /\
    (name <> "" ->
       filter isNewReporter (trace r) = [Invoke (NewReporter ns name ver)] /\
       startedReporters (trace r) =
         (if registrationOk name w
          then [ClusterOperatorReporter ns name ver] else []) /\
       (forall err, newReporterErr w = Some err ->
          outcome r = Exit 1%Z /\
          lastEvent (trace r) = Some (Log FatalLevel err) /\
          startedReporters (trace r) = [])).
Proof.
  intros name ns ver w p r; subst r.
  split; intros Hname.
  - subst name. destruct w as [[nr|] [pg|] [am|] [[ms|]|] [|]];
      split; reflexivity.
  - destruct name as [|c0 name]; [congruence|].
    destruct w as [[nr|] [pg|] [am|] [[ms|]|] [|]];
      (split; [reflexivity | split; [reflexivity | ]]);
      intros err Herr; cbn in Herr; try discriminate;
      injection Herr as ->; repeat split.
Qed.

Lemma run_reporter_choice_witness :
  let w := {| newReporterErr := None; populateGlobalsErr := None;
              addToManagerErr := None; managerStart := Some None;
              reporterDone := true |} in
  startedReporters (trace (run "" "ns" "4.12" w initProc)) = [NoOpReporter] /\
  startedReporters (trace (run "marketplace" "ns" "4.12" w initProc)) =
    [ClusterOperatorReporter "ns" "marketplace" "4.12"].
Proof.
  intros w. split.
  - apply (run_reporter_choice "" "ns" "4.12" w initProc). reflexivity.
  - apply (run_reporter_choice "marketplace" "ns" "4.12" w initProc).
    discriminate.
Defined.

(** C7. When mgr.Start returns an error, [run] logs it at error level
    ("unable to run manager") and goes straight on to the receive from the
    reporter's completion channel; nothing is logged at fatal level and the
    process does not exit: the body returns once the signal comes. *)
Theorem manager_error_is_logged_not_fatal :
  forall (name ns ver : string) (w : EpisodeEnv) (p : Proc) (err : error),
    registrationOk name w = true ->
    managerStart w = Some (Some err) ->
    let r := run name ns ver w p in
    fromFirst isManagerStartReturned (trace r) =
      ManagerStartReturned (Some err)
      :: LogWithError ErrorLevel err "unable to run manager"
      :: (if signalComes name w then [ReportingDoneReceived] else []) /\
    outcome r = (if signalComes name w then Ret tt else Block) /\
    (forall code, outcome r <> Exit code) /\
    (forall msg, outcome r <> Panic msg) /\
    occurrences isFatalLog (trace r) = 0.
Proof.
  intros name ns ver w p err Hreg Hms r; subst r.
  run_cases name w; try discriminate; injection Hms as ->;
    repeat split; intros; try reflexivity; discriminate.
Qed.

Lemma manager_error_is_logged_not_fatal_witness :
  let w := {| newReporterErr := None; populateGlobalsErr := None;
              addToManagerErr := None;
              managerStart := Some (Some "cache sync timed out");
              reporterDone := true |} in
  registrationOk "marketplace" w = true /\
  managerStart w = Some (Some "cache sync timed out") /\
  outcome (run "marketplace" "ns" "4.12" w initProc) = Ret tt.
Proof.
  intros w. split; [reflexivity | split; [reflexivity | ]].
  apply (manager_error_is_logged_not_fatal "marketplace" "ns" "4.12" w initProc
           "cache sync timed out"); reflexivity.
Defined.

(** ** The OnNewLeader handler *)

(** C10. OnNewLeader leaves the process state as it found it and returns;
    it logs nothing when the reported leader is this process, and otherwise
    logs exactly one info entry naming the reported leader. *)
Theorem on_new_leader_observes_only :
  forall (id identity : string) (p : Proc),
    let r := OnNewLeader id identity p in
    final r = p /\
    outcome r = Ret tt /\
    (identity = id -> trace r = []) /\
    (identity <> id ->
       trace r = [Log InfoLevel (Sprintf "current leader: " identity "")]).
Proof.
  intros id identity p r; subst r. unfold OnNewLeader.
  destruct (String.eqb_spec identity id) as [Heq | Hne].
  - split; [reflexivity | split; [reflexivity | split; intros Hid]];
      [reflexivity | contradiction].
  - split; [reflexivity | split; [reflexivity | split; intros Hid]];
      [contradiction | reflexivity].
Qed.

Lemma on_new_leader_observes_only_witness :
  trace (OnNewLeader "pod-A" "pod-A" initProc) = [] /\
  trace (OnNewLeader "pod-A" "pod-B" initProc) =
    [Log InfoLevel "current leader: pod-B"].
Proof.
  split.
  - apply (on_new_leader_observes_only "pod-A" "pod-A" initProc). reflexivity.
  - apply (on_new_leader_observes_only "pod-A" "pod-B" initProc). discriminate.
Defined.

(** ** Identity *)

(** C8, as stated, fails here. With POD_NAME unset and a host whose name
    resolves, without error, to the empty string, the identity is empty and
    set-up carries on with it. *)
Lemma identity_empty_when_hostname_empty :
  let e := withIdentitySources "" (Ok "") okEnv in
  outcome (resolveIdentity e initProc) = Ret "" /\
  exists h, outcome (mainSetup defaultFlags e initProc) = Ret h /\
            Identity (lec h) = "".
Proof.
  intros e. split; [reflexivity | ].
  eexists. split; reflexivity.
Qed.

(** C8 (amended). The identity is POD_NAME when that is non-empty, and no
    host name is asked for; otherwise it is the host name as os.Hostname
    returns it, and a failure of os.Hostname ends the process with status 1.
    The identity is non-empty whenever POD_NAME or the resolved host name
    is. *)
Theorem identity_resolution :
  forall (e : Env) (p : Proc),
    let r := resolveIdentity e p in
    (POD_NAME e <> "" -> outcome r = Ret (POD_NAME e) /\ trace r = []) /\
    (POD_NAME e = "" ->
       (forall h, hostname e = Ok h ->
          outcome r = Ret h /\
          trace r = [Log WarnLevel
                       "failed to determine $POD_NAME falling back to hostname";
                     Invoke Hostname]) /\
       (forall err, hostname e = Err err ->
          outcome r = Exit 1%Z /\
          exitStatus (outcome r) <> Some 0%Z /\
          lastEvent (trace r) = Some (Log FatalLevel err))) /\
    (forall id, outcome r = Ret id ->
       id = "" -> POD_NAME e = "" /\ hostname e = Ok "").
Proof.
  intros e p r; subst r. unfold resolveIdentity.
  destruct (String.eqb_spec (POD_NAME e) "") as [Hpod | Hpod].
  - split; [intros; contradiction | split].
    + intros _. split.
      * intros h Hh. rewrite Hh. split; reflexivity.
      * intros err Hh. rewrite Hh. repeat split. discriminate.
    + intros id Hret Hid. split; [exact Hpod | ].
      destruct (hostname e) as [h | err]; cbn in Hret; [ | discriminate].
      injection Hret as ->. now subst.
  - split; [intros _; split; reflexivity | split].
    + intros; contradiction.
    + intros id Hret Hid. cbn in Hret. injection Hret as Hret. congruence.
Qed.

Lemma identity_resolution_witness :
  POD_NAME okEnv <> "" /\
  outcome (resolveIdentity okEnv initProc) = Ret "pod-A".
Proof.
  split; [cbn; discriminate | ].
  destruct (identity_resolution okEnv initProc) as [Hpod _].
  apply Hpod. cbn; discriminate.
Defined.

(** ** Set-up *)

(** What [main] hands to RunOrDie, whenever it gets that far. *)
Lemma mainSetup_handoff :
  forall (f : Flags) (e : Env) (p : Proc) (h : Handoff),
    outcome (mainSetup f e p) = Ret h ->
    version f = false /\
    setupOk e = true /\
    LockNamespace (lec h) = leaderElectionNamespace f /\
    LockName (lec h) = defaultLeaderElectionConfigMapName /\
    ReleaseOnCancel (lec h) = true /\
    LeaseDuration (lec h) = defaultLeaseDuration /\
    RenewDeadline (lec h) = defaultRenewDeadline /\
    RetryPeriod (lec h) = defaultRetryPeriod /\
    outcome (resolveIdentity e p) = Ret (Identity (lec h)).
Proof.
  intros f e p h H. setup_cases; injection H as <-; cbn; repeat split.
Qed.

(** C4. The timing parameters are 90s, 60s and 30s, so that lease duration >
    renew deadline > retry period, and they are what every run of [main]
    that reaches RunOrDie hands to it; that configuration passes the start-up
    check, so the check never changes what [main] does, while any
    configuration with lease duration <= renew deadline is rejected there:
    RunOrDie dies before the election loop is entered. *)
Theorem leadership_timing_ordered :
  (defaultRetryPeriod < defaultRenewDeadline < defaultLeaseDuration)%Z /\
  defaultLeaseDuration = (90 * 1000000000)%Z /\
  defaultRenewDeadline = (60 * 1000000000)%Z /\
  defaultRetryPeriod = (30 * 1000000000)%Z /\
  Time.in_int64 defaultLeaseDuration /\
  (forall f e p h,
     outcome (mainSetup f e p) = Ret h ->
     LeaseDuration (lec h) = defaultLeaseDuration /\
     RenewDeadline (lec h) = defaultRenewDeadline /\
     RetryPeriod (lec h) = defaultRetryPeriod /\
     (RetryPeriod (lec h) < RenewDeadline (lec h) < LeaseDuration (lec h))%Z /\
     validateTiming (lec h) = None) /\
  (forall loop f e p,
     main (RunOrDie_startup loop) f e p = main loop f e p) /\
  (forall loop h p,
     (LeaseDuration (lec h) <= RenewDeadline (lec h))%Z ->
     validateTiming (lec h) <> None /\
     exists err, RunOrDie_startup loop h p = ([], p, Panic err)).
Proof.
  split; [vm_compute; split; reflexivity | ].
  split; [reflexivity | split; [reflexivity | split; [reflexivity | ]]].
  split; [vm_compute; split; discriminate | ].
  split; [ | split].
  - intros f e p h H.
    destruct (mainSetup_handoff f e p h H) as (_ & _ & _ & _ & _ & Hl & Hr & Ht & _).
    unfold validateTiming. rewrite Hl, Hr, Ht. repeat split.
  - intros loop f e p. unfold main, bind.
    destruct (mainSetup f e p) as [[t p'] [h | c | msg | ]] eqn:Hsetup;
      try reflexivity.
    assert (Hret : outcome (mainSetup f e p) = Ret h) by now rewrite Hsetup.
    destruct (mainSetup_handoff f e p h Hret)
      as (_ & _ & _ & _ & _ & Hl & Hr & _).
    unfold deferring, RunOrDie_startup, validateTiming. now rewrite Hl, Hr.
  - intros loop h p Hle. unfold RunOrDie_startup, validateTiming.
    apply Z.leb_le in Hle. rewrite Hle. split; [discriminate | ].
    eexists; reflexivity.
Qed.

Lemma leadership_timing_ordered_witness :
  (exists h, outcome (mainSetup defaultFlags okEnv initProc) = Ret h /\
             validateTiming (lec h) = None) /\
  validateTiming
    {| LockNamespace := "openshift-marketplace";
       LockName := defaultLeaderElectionConfigMapName;
       Identity := "pod-A"; ReleaseOnCancel := true;
       LeaseDuration := defaultRenewDeadline;
       RenewDeadline := defaultRenewDeadline;
       RetryPeriod := defaultRetryPeriod |} <> None.
Proof.
  destruct leadership_timing_ordered as (_ & _ & _ & _ & _ & Hmain & _ & Hrej).
  split.
  - eexists. split; [reflexivity | ].
    eapply Hmain with (f := defaultFlags) (e := okEnv) (p := initProc).
    reflexivity.
  - apply (Hrej (fun _ => ret tt)
             {| lec := {| LockNamespace := "openshift-marketplace";
                          LockName := defaultLeaderElectionConfigMapName;
                          Identity := "pod-A"; ReleaseOnCancel := true;
                          LeaseDuration := defaultRenewDeadline;
                          RenewDeadline := defaultRenewDeadline;
                          RetryPeriod := defaultRetryPeriod |};
                watchNamespace := "" |} initProc).
    cbn. apply Z.le_refl.
Defined.

(** ** Exit codes *)




(** ** Leadership loss and re-acquisition *)


Lemma occurrences_app (q : Event -> bool) (a b : list Event) :
  occurrences q (a ++ b) = occurrences q a + occurrences q b.
Proof. unfold occurrences. now rewrite filter_app, length_app. Qed.

(** The three handlers, by what they add to the counts. *)
Lemma started_leading_counts (name ns ver id : string) (w : EpisodeEnv) (p : Proc) :
  let r := OnStartedLeading name ns ver id w p in
  occurrences (isBecameLeader id) (trace r) = 1 /\
  occurrences (isLostWarning id) (trace r) = 0 /\
  occurrences isCancel (trace r) = 0 /\
  rootCancelled (final r) = rootCancelled p.
Proof.
  run_cases name w; unfold occurrences; cbn; rewrite String.eqb_refl;
    repeat split.
Qed.

Lemma stopped_leading_counts (id : string) (p : Proc) :
  let r := OnStoppedLeading id p in
  r = ([Log WarnLevel (Sprintf "leader election lost for " id " identity");
        Invoke Cancel],
       {| rootCancelled := true; loggerLevel := loggerLevel p;
          errVar := errVar p |}, Ret tt) /\
  occurrences (isBecameLeader id) (trace r) = 0 /\
  occurrences (isLostWarning id) (trace r) = 1 /\
  occurrences isCancel (trace r) = 1.
Proof.
  unfold occurrences; cbn; rewrite String.eqb_refl; repeat split.
Qed.

Lemma new_leader_counts (id owner : string) (p : Proc) :
  let r := OnNewLeader id owner p in
  final r = p /\ outcome r = Ret tt /\
  occurrences (isBecameLeader id) (trace r) = 0 /\
  occurrences (isLostWarning id) (trace r) = 0 /\
  occurrences isCancel (trace r) = 0.
Proof.
  unfold OnNewLeader. destruct (owner =? id)%string; repeat split.
Qed.


Lemma bind_cases {A B} (m : M A) (k : A -> M B) (p : Proc) :
  bind m k p =
    match m p with
    | (t, p', Ret a) =>
        (t ++ trace (k a p'), final (k a p'), outcome (k a p'))
    | (t, p', Exit c) => (t, p', Exit c)
    | (t, p', Panic msg) => (t, p', Panic msg)
    | (t, p', Block) => (t, p', Block)
    end.
Proof.
  unfold bind. destruct (m p) as [[t p'] [a | c | msg | ]]; try reflexivity.
  destruct (k a p') as [[t' p''] r]. reflexivity.
Qed.

Section ElectionFacts.

Import Election.

Variables (f : Flags) (e : Env) (h : Handoff).
Variable envOf : nat -> EpisodeEnv.

Lemma step_coherent (m : Machine) (i : Input) (p : Proc) :
  coherent m p ->
  let id := Identity (lec h) in
  let r := step (lec h) (callbacks f e h) envOf m i p in
  occurrences (isLostWarning id) (trace r) = occurrences isCancel (trace r) /\
  match outcome r with
  | Ret m' =>
      coherent m' (final r) /\
      episodes m' = episodes m + occurrences (isBecameLeader id) (trace r) /\
      stopped m' = stopped m + occurrences isCancel (trace r)
  | _ =>
      episodes m = 0 /\ stopped m = 0 /\
      occurrences (isBecameLeader id) (trace r) = 1 /\
      occurrences isCancel (trace r) = 0
  end.
Proof.
  intros (Hle & Hst & Hroot) id r; subst id r.
  destruct m as [s n k o]; cbn in Hle, Hst, Hroot.
  destruct i as [granted | | owner].
  - (* a poll cycle *)
    unfold step. rewrite bind_cases. cbn [get].
    cbn [state episodes stopped observed].
    destruct s.
    + (* Candidate *)
      destruct (rootCancelled p) eqn:Hp.
      * cbn. unfold coherent; cbn. repeat split; auto; lia.
      * destruct granted.
        -- assert (Hn : n = 0).
           { destruct (Nat.eq_dec k 1) as [Hk | Hk];
               [apply Hroot in Hk; congruence | lia]. }
           subst n. assert (k = 0) by lia. subst k.
           unfold callbacks, onStartedLeading.
           rewrite bind_cases.
           destruct (started_leading_counts (clusterOperatorName f)
                       (watchNamespace h) (RELEASE_VERSION e)
                       (Identity (lec h)) (envOf 1) p)
             as (Hb & Hw & Hc & Hr).
           destruct (OnStartedLeading _ _ _ _ _ p) as [[t p'] [[] | c | msg | ]];
             cbn [trace final outcome fst snd ret app] in *;
             rewrite ?app_nil_r, ?Hb, ?Hw, ?Hc;
             unfold coherent; cbn; repeat split; auto; try lia; congruence.
        -- cbn. unfold coherent; cbn. repeat split; auto; lia.
    + (* Leading *)
      destruct (rootCancelled p) eqn:Hp; [ | destruct granted];
        cbn; unfold coherent; cbn; repeat split; auto; lia.
    + (* Lost *)
      unfold callbacks, onStoppedLeading. rewrite bind_cases.
      destruct (stopped_leading_counts (Identity (lec h)) p)
        as (Hrun & Hb & Hw & Hc).
      cbn zeta in Hrun. rewrite Hrun in *.
      cbn [trace final outcome fst snd ret app] in *.
      rewrite Hb, Hw, Hc.
      unfold coherent; cbn. repeat split; auto; lia.
    + (* Released *)
      rewrite bind_cases.
      destruct (stopped_leading_counts (Identity (lec h)) p)
        as (Hrun & Hb & Hw & Hc).
      cbn zeta in Hrun.
      destruct (ReleaseOnCancel (lec h));
        cbn [invoke emit ret trace final outcome fst snd];
        unfold callbacks, onStoppedLeading; rewrite bind_cases;
        rewrite Hrun in *;
        cbn [trace final outcome fst snd ret app] in *;
        rewrite ?occurrences_app, ?Hb, ?Hw, ?Hc;
        unfold coherent; cbn; repeat split; auto; lia.
    + (* Shutdown *)
      cbn. unfold coherent; cbn. repeat split; auto; lia.
  - (* a signal *)
    cbn. unfold coherent; cbn. repeat split; auto; lia.
  - (* a look at the lock record *)
    assert (Hnew : forall st,
      let r := (onNewLeader (callbacks f e h) owner ;;
                ret {| state := st; episodes := n; stopped := k;
                       observed := Some owner |}) p in
      final r = p /\
      outcome r = Ret {| state := st; episodes := n; stopped := k;
                         observed := Some owner |} /\
      occurrences (isBecameLeader (Identity (lec h))) (trace r) = 0 /\
      occurrences (isLostWarning (Identity (lec h))) (trace r) = 0 /\
      occurrences isCancel (trace r) = 0).
    { intros st. cbn zeta. unfold callbacks, onNewLeader. rewrite bind_cases.
      destruct (new_leader_counts (Identity (lec h)) owner p)
        as (Hf & Ho & Hb & Hw & Hc).
      destruct (OnNewLeader (Identity (lec h)) owner p) as [[t p'] res].
      cbn in Hf, Ho, Hb, Hw, Hc. subst p' res.
      cbn [trace final outcome fst snd ret]. rewrite app_nil_r.
      repeat split; assumption. }
    unfold step. cbn [state episodes stopped observed].
    destruct s; destruct o as [seen | ];
      try destruct (seen =? owner)%string;
      try (cbn; unfold coherent; cbn; repeat split; auto; lia).
    all: match goal with
         | |- context [ret {| state := ?st |}] =>
             destruct (Hnew st) as (Hf & Ho & Hb & Hw & Hc)
         end;
         cbn zeta in Hf, Ho, Hb, Hw, Hc;
         rewrite Ho, Hf, Hb, Hw, Hc;
         unfold coherent; cbn; repeat split; auto; lia.
Qed.

End ElectionFacts.


Lemma coherent_counts (m : Election.Machine) (p : Proc) :
  coherent m p ->
  Election.stopped m <= Election.episodes m /\ Election.episodes m <= 1.
Proof.
  intros (Hle & Hst & _). destruct (Election.state m); lia.
Qed.

Section DriveFacts.

Import Election.

Variables (f : Flags) (e : Env) (h : Handoff).
Variable envOf : nat -> EpisodeEnv.

Lemma drive_coherent (inputs : list Input) :
  forall (m : Machine) (p : Proc),
    coherent m p ->
    let id := Identity (lec h) in
    let r := drive (lec h) (callbacks f e h) envOf m inputs p in
    occurrences (isLostWarning id) (trace r) = occurrences isCancel (trace r) /\
    episodes m + occurrences (isBecameLeader id) (trace r) <= 1 /\
    stopped m + occurrences isCancel (trace r)
      <= episodes m + occurrences (isBecameLeader id) (trace r) /\
    forall m', outcome r = Ret m' ->
      coherent m' (final r) /\
      episodes m' = episodes m + occurrences (isBecameLeader id) (trace r) /\
      stopped m' = stopped m + occurrences isCancel (trace r).
Proof.
  induction inputs as [|i rest IH]; intros m p Hm id r; subst id r.
  - destruct (coherent_counts m p Hm) as [Hs He]. cbn.
    split; [reflexivity | split; [lia | split; [lia | ]]].
    intros m' H. injection H as <-. split; [exact Hm | split; lia].
  - destruct (coherent_counts m p Hm) as [Hs He].
    pose proof (step_coherent f e h envOf m i p Hm) as Hstep.
    cbn zeta in Hstep. cbn [drive]. rewrite bind_cases.
    destruct (step (lec h) (callbacks f e h) envOf m i p)
      as [[t p1] [m1 | c | msg | ]];
      cbn [trace final outcome fst snd] in Hstep |- *.
    + destruct Hstep as (Hw & Hm1 & He1 & Hs1).
      specialize (IH m1 p1 Hm1). cbn zeta in IH.
      destruct IH as (Hw' & Hle' & Hsl' & Hret').
      rewrite !occurrences_app.
      split; [lia | split; [lia | split; [lia | ]]].
      intros m' H. destruct (Hret' m' H) as (Hm' & He' & Hs').
      split; [exact Hm' | split; lia].
    + destruct Hstep as (Hw & He0 & Hs0 & Hb & Hc).
      split; [lia | split; [lia | split; [lia | intros m' H; discriminate H]]].
    + destruct Hstep as (Hw & He0 & Hs0 & Hb & Hc).
      split; [lia | split; [lia | split; [lia | intros m' H; discriminate H]]].
    + destruct Hstep as (Hw & He0 & Hs0 & Hb & Hc).
      split; [lia | split; [lia | split; [lia | intros m' H; discriminate H]]].
Qed.

End DriveFacts.


(** C2, as stated, fails here. A process becomes leader, loses the lease
    at the next renewal, and the lock client would grant every attempt
    after that: the process fires the stopped-leading callback once, goes
    back to Candidate and from there shuts down, the callback having
    cancelled the root context. It makes no second acquisition; its episode
    count stays at one. *)
Lemma no_second_episode_after_loss :
  let h := {| lec := {| LockNamespace := "openshift-marketplace";
                        LockName := defaultLeaderElectionConfigMapName;
                        Identity := "pod-A"; ReleaseOnCancel := true;
                        LeaseDuration := defaultLeaseDuration;
                        RenewDeadline := defaultRenewDeadline;
                        RetryPeriod := defaultRetryPeriod |};
              watchNamespace := "openshift-marketplace" |} in
  let w := {| newReporterErr := None; populateGlobalsErr := None;
              addToManagerErr := None; managerStart := Some None;
              reporterDone := true |} in
  let grants := [Election.Poll true; Election.Poll false; Election.Poll true;
                 Election.Poll true; Election.Poll true; Election.Poll true] in
  let r := Election.drive (lec h) (callbacks defaultFlags okEnv h) (fun _ => w)
             Election.initMachine grants initProc in
  outcome r = Ret {| Election.state := Election.Shutdown;
                     Election.episodes := 1;
                     Election.stopped := 1;
                     Election.observed := None |} /\
  occurrences (isBecameLeader "pod-A") (trace r) = 1 /\
  occurrences isCancel (trace r) = 1 /\
  rootCancelled (final r) = true /\
  (forall m, outcome r = Ret m -> Election.episodes m <> 2).
Proof.
  intros h w grants r.
  split; [reflexivity | split; [reflexivity | split; [reflexivity | ]]].
  split; [reflexivity | ].
  intros m Hm. cbn in Hm. injection Hm as <-. cbn. discriminate.
Qed.

(** C2 (amended). After a leadership loss the machine fires the
    stopped-leading callback exactly once and returns to Candidate; the
    callback logs the warning that the election was lost for this identity
    and cancels the root context. Cancelling the root context is the way the
    process shuts down, so from Candidate the machine then exits without
    another acquisition attempt: the process does not lead again. Over every
    run of the machine from its start, whatever reaches it: the episode
    count goes up by exactly one on an acquisition and at no other step, the
    process leads at most one episode, and the warning and the [cancel()] of
    the stopped-leading callback occur once for the episode that is over and
    not otherwise. *)
Theorem leadership_loss_is_final :
  forall (f : Flags) (e : Env) (h : Handoff) (envOf : nat -> EpisodeEnv)
         (inputs : list Election.Input) (p : Proc),
    let id := Identity (lec h) in
    let step := Election.step (lec h) (callbacks f e h) envOf in
    let r := Election.drive (lec h) (callbacks f e h) envOf
               Election.initMachine inputs p in
    (forall m q g,
       Election.state m = Election.Lost ->
       step m (Election.Poll g) q =
         ([Log WarnLevel (Sprintf "leader election lost for " id " identity");
           Invoke Cancel],
          {| rootCancelled := true; loggerLevel := loggerLevel q;
             errVar := errVar q |},
          Ret {| Election.state := Election.Candidate;
                 Election.episodes := Election.episodes m;
                 Election.stopped := S (Election.stopped m);
                 Election.observed := Election.observed m |})) /\
    (forall m q g,
       Election.state m = Election.Candidate -> rootCancelled q = true ->
       step m (Election.Poll g) q =
         ([], q, Ret (Election.withState Election.Shutdown m))) /\
    (forall m i q m',
       outcome (step m i q) = Ret m' ->
       Election.episodes m' =
         (if match Election.state m, i with
             | Election.Candidate, Election.Poll true => negb (rootCancelled q)
             | _, _ => false
             end
          then S (Election.episodes m) else Election.episodes m)) /\
    occurrences (isBecameLeader id) (trace r) <= 1 /\
    occurrences isCancel (trace r) <= occurrences (isBecameLeader id) (trace r) /\
    occurrences (isLostWarning id) (trace r) = occurrences isCancel (trace r) /\
    (forall m, outcome r = Ret m ->
       Election.episodes m = occurrences (isBecameLeader id) (trace r) /\
       Election.stopped m = occurrences isCancel (trace r) /\
       Election.episodes m <= 1 /\
       (Election.state m = Election.Candidate \/
        Election.state m = Election.Shutdown ->
        Election.stopped m = Election.episodes m) /\
       (Election.state m = Election.Leading \/
        Election.state m = Election.Lost \/
        Election.state m = Election.Released ->
        Election.episodes m = 1 /\ Election.stopped m = 0) /\
       (Election.stopped m = 1 -> rootCancelled (final r) = true)).
Proof.
  intros f e h envOf inputs p id step r; subst id step r.
  split; [ | split; [ | split]].
  - intros [s n k o] q g Hs; cbn in Hs; subst s. reflexivity.
  - intros [s n k o] q g Hs Hq; cbn in Hs; subst s.
    unfold Election.step. rewrite bind_cases. cbn [get].
    cbn [Election.state]. rewrite Hq. destruct q; reflexivity.
  - intros [s n k o] i q m' Hstep. cbn [Election.state Election.episodes].
    destruct i as [g | | owner].
    + unfold Election.step in Hstep. rewrite bind_cases in Hstep.
      cbn [get Election.state Election.episodes Election.stopped
           Election.observed] in Hstep.
      destruct s; destruct (rootCancelled q); try destruct g;
        try destruct (ReleaseOnCancel (lec h));
        try (cbn in Hstep; injection Hstep as <-; reflexivity).
      all: unfold callbacks, onStartedLeading in Hstep;
        rewrite bind_cases in Hstep;
        destruct (OnStartedLeading _ _ _ _ _ q) as [[t q'] [[] | c | msg | ]];
        cbn in Hstep; try discriminate Hstep;
        injection Hstep as <-; reflexivity.
    + cbn in Hstep. injection Hstep as <-. destruct s; reflexivity.
    + unfold Election.step, callbacks, onNewLeader, OnNewLeader in Hstep.
      cbn [Election.state Election.episodes Election.stopped
           Election.observed] in Hstep.
      destruct s; destruct o as [seen | ];
        try destruct (seen =? owner)%string;
        try destruct (owner =? Identity (lec h))%string;
        cbn in Hstep; injection Hstep as <-; reflexivity.
  - assert (Hinit : coherent Election.initMachine p).
    { unfold coherent; cbn. repeat split; auto; intros; discriminate. }
    destruct (drive_coherent f e h envOf inputs Election.initMachine p Hinit)
      as (Hw & Hle & Hsl & Hret).
    cbn [Election.initMachine Election.episodes Election.stopped] in *.
    split; [lia | split; [lia | split; [exact Hw | ]]].
    intros m Hm. destruct (Hret m Hm) as ((Hle' & Hst & Hroot) & He & Hs).
    split; [lia | split; [lia | split; [exact Hle' | ]]].
    split; [ | split; [ | exact Hroot]].
    + intros [H | H]; rewrite H in Hst; exact Hst.
    + intros [H | [H | H]]; rewrite H in Hst; exact Hst.
Qed.

Lemma leadership_loss_is_final_witness :
  let h := {| lec := {| LockNamespace := "openshift-marketplace";
                        LockName := defaultLeaderElectionConfigMapName;
                        Identity := "pod-A"; ReleaseOnCancel := true;
                        LeaseDuration := defaultLeaseDuration;
                        RenewDeadline := defaultRenewDeadline;
                        RetryPeriod := defaultRetryPeriod |};
              watchNamespace := "openshift-marketplace" |} in
  let w := {| newReporterErr := None; populateGlobalsErr := None;
              addToManagerErr := None; managerStart := Some None;
              reporterDone := true |} in
  let r := Election.drive (lec h) (callbacks defaultFlags okEnv h) (fun _ => w)
             Election.initMachine
             [Election.Poll true; Election.Signal; Election.Poll true;
              Election.Poll true] initProc in
  outcome r = Ret {| Election.state := Election.Candidate;
                     Election.episodes := 1;
                     Election.stopped := 1;
                     Election.observed := None |} /\
  occurrences isCancel (trace r) = 1 /\
  rootCancelled (final r) = true.
Proof.
  intros h w r.
  destruct (leadership_loss_is_final defaultFlags okEnv h (fun _ => w)
              [Election.Poll true; Election.Signal; Election.Poll true;
               Election.Poll true] initProc)
    as (_ & _ & _ & _ & _ & _ & Hret).
  destruct (Hret _ eq_refl) as (_ & Hs & _ & _ & _ & Hroot).
  split; [reflexivity | split; [symmetry; exact Hs | apply Hroot; reflexivity]].
Defined.


(** * Further properties of main.go *)

(** ** setupScheme *)

(** X1. [setupScheme] registers the marketplace, OLM and core groups, in
    that order, and the OpenShift config group after them exactly when that
    API is available. It returns exactly when every one of these
    registrations succeeds; otherwise it panics with the error of the first
    registration that fails, and attempts none after it. It leaves the
    process state alone and neither exits nor blocks. *)
Theorem setupScheme_registers_in_order :
  forall (e : Env) (p : Proc),
    let r := setupScheme e p in
    final r = p /\
    (outcome r = Ret tt <->
       forall g, In g (wantedGroups e) -> addToScheme e g = None) /\
    (outcome r = Ret tt -> registeredGroups (trace r) = wantedGroups e) /\
    (forall msg, outcome r = Panic msg ->
       exists g n,
         lastGroup (trace r) = Some g /\
         addToScheme e g = Some msg /\
         registeredGroups (trace r) = firstn (S n) (wantedGroups e) /\
         forall g', In g' (firstn n (wantedGroups e)) -> addToScheme e g' = None) /\
    (isAPIAvailable e = false ->
       ~ In OpenShiftConfigV1 (registeredGroups (trace r))) /\
    (forall c, outcome r <> Exit c) /\
    outcome r <> Block.
Proof.
  intros e p r; subst r.
  unfold setupScheme, lastGroup, Must, invoke, emit, panic, ret,
    bind, outcome, trace, final.
  destruct (addToScheme e MarketplaceApis) as [e1|] eqn:H1.
  { unfold wantedGroups; cbn.
    split; [reflexivity | split; [split; [discriminate | intros Hall] | ]].
    { rewrite Hall in H1 by tauto. discriminate. }
    split; [discriminate | split].
    { intros msg Hp. injection Hp as <-.
      exists MarketplaceApis, 0. repeat split; try assumption. intros g' []. }
    split; [intros _ Hg; cbn in Hg; intuition discriminate | ].
    split; [intros c | ]; discriminate. }
  destruct (addToScheme e OlmV1alpha1) as [e2|] eqn:H2.
  { unfold wantedGroups; cbn.
    split; [reflexivity | split; [split; [discriminate | intros Hall] | ]].
    { rewrite Hall in H2 by tauto. discriminate. }
    split; [discriminate | split].
    { intros msg Hp. injection Hp as <-.
      exists OlmV1alpha1, 1. repeat split; try assumption.
      intros g' Hg; cbn in Hg; intuition (subst; assumption). }
    split; [intros _ Hg; cbn in Hg; intuition discriminate | ].
    split; [intros c | ]; discriminate. }
  destruct (addToScheme e CoreV1) as [e3|] eqn:H3.
  { unfold wantedGroups; cbn.
    split; [reflexivity | split; [split; [discriminate | intros Hall] | ]].
    { rewrite Hall in H3 by tauto. discriminate. }
    split; [discriminate | split].
    { intros msg Hp. injection Hp as <-.
      exists CoreV1, 2. repeat split; try assumption.
      intros g' Hg; cbn in Hg; intuition (subst; assumption). }
    split; [intros _ Hg; cbn in Hg; intuition discriminate | ].
    split; [intros c | ]; discriminate. }
  unfold wantedGroups. destruct (isAPIAvailable e) eqn:Ha.
  - destruct (addToScheme e OpenShiftConfigV1) as [e4|] eqn:H4; cbn.
    + split; [reflexivity | split; [split; [discriminate | intros Hall] | ]].
      { rewrite Hall in H4 by tauto. discriminate. }
      split; [discriminate | split].
      { intros msg Hp. injection Hp as <-.
        exists OpenShiftConfigV1, 3. repeat split; try assumption.
        intros g' Hg; cbn in Hg; intuition (subst; assumption). }
      split; [discriminate | ].
      split; [intros c | ]; discriminate.
    + split; [reflexivity | split; [split; [intros _ g Hg | reflexivity] | ]].
      { cbn in Hg; intuition (subst; assumption). }
      split; [reflexivity | split; [discriminate | ]].
      split; [discriminate | ].
      split; [intros c | ]; discriminate.
  - cbn.
    split; [reflexivity | split; [split; [intros _ g Hg | reflexivity] | ]].
    { cbn in Hg; intuition (subst; assumption). }
    split; [reflexivity | split; [discriminate | ]].
    split; [intros _ Hg; cbn in Hg; intuition discriminate | ].
    split; [intros c | ]; discriminate.
Qed.

(** X1, on an environment without the OpenShift config API. *)
Lemma setupScheme_registers_in_order_witness :
  let e := {| goVersion := ""; goOS := ""; goArch := ""; sourceCommit := "";
              parseLevel := Logrus.ParseLevel; POD_NAME := "";
              RELEASE_VERSION := ""; servePrometheus := None;
              getWatchNamespace := Ok ""; getConfig := None;
              setConfigAPIAvailability := None; isAPIAvailable := false;
              addToScheme := fun _ => None; newManager := None;
              newForConfig := None; hostname := Ok "";
              newResourceLock := None |} in
  registeredGroups (trace (setupScheme e initProc)) =
    [MarketplaceApis; OlmV1alpha1; CoreV1].
Proof.
  intros e.
  destruct (setupScheme_registers_in_order e initProc) as (_ & _ & Hok & _).
  apply Hok. reflexivity.
Defined.

(** ** Set-up *)

(** X2. Set-up never cancels the root context. When the log level parses,
    the logger is at that level from then on, however set-up ends (also on
    the version short-circuit and on every fatal error). When it does not
    parse, the logger's level is left as it was and [main]'s [err] holds the
    parse error. When set-up reaches the leader election, [err] is nil. *)
Theorem mainSetup_logger_and_context :
  forall (f : Flags) (e : Env) (p : Proc),
    let r := mainSetup f e p in
    rootCancelled (final r) = rootCancelled p /\
    occurrences isCancel (trace r) = 0 /\
    (forall l, parseLevel e (loglvl f) = Ok l -> loggerLevel (final r) = l) /\
    (forall err, parseLevel e (loglvl f) = Err err ->
       loggerLevel (final r) = loggerLevel p /\
       errVar (final r) = Some err) /\
    (forall h, outcome r = Ret h -> errVar (final r) = None).
Proof.
  intros f e p r; subst r.
  split; [ | split; [ | split; [ | split]]].
  - setup_cases; reflexivity.
  - setup_cases; reflexivity.
  - intros l Hl. unfold mainSetup, setupAfterFlags. rewrite Hl.
    setup_cases; reflexivity.
  - intros err Herr. unfold_setup. rewrite Herr. split; reflexivity.
  - intros h H. setup_cases; reflexivity.
Qed.

Lemma mainSetup_logger_and_context_witness :
  let f := {| clusterOperatorName := ""; defaultsDir := "";
              version := true; tlsKeyPath := ""; tlsCertPath := "";
              leaderElectionNamespace := "openshift-marketplace";
              loglvl := "debug" |} in
  loggerLevel (final (mainSetup f okEnv initProc)) = DebugLevel.
Proof.
  intros f.
  destruct (mainSetup_logger_and_context f okEnv initProc) as (_ & _ & Hl & _).
  apply Hl. reflexivity.
Defined.

(** X3. Every way the bootstrap ends the process. Status 2 comes only from
    [flag.Parse] refusing the command line, before anything but the version
    banner was logged. Status 0 comes only from a request for help or from
    the version flag, the latter right after the call that logs the source
    commit. Status 1 comes only right after a call of the logger at fatal
    level, or at error level for the log level that does not parse. A panic
    comes only right after the registration of the API group whose error it
    carries. (A logger call is written out or not according to the level the
    logger is at.) *)
Theorem mainBootstrap_endings :
  forall (c : CommandLine) (e : Env) (p : Proc),
    let r := mainBootstrap c e p in
    (forall code, outcome r = Exit code ->
       (code = 2%Z /\ c = FlagsRefused /\ trace r = trace (printVersion e p))
       \/
       (code = 0%Z /\
        ((c = HelpRequested /\ trace r = trace (printVersion e p)) \/
         exists f,
           c = FlagsParsed f /\ version f = true /\
           lastEvent (trace r) =
             Some (Log InfoLevel (Sprintf "" (sourceCommit e) ""))))
       \/
       (code = 1%Z /\
        exists f msg,
          c = FlagsParsed f /\
          (lastEvent (trace r) = Some (Log FatalLevel msg) \/
           (lastEvent (trace r) = Some (Log ErrorLevel msg) /\
            parseLevel e (loglvl f) = Err msg)))) /\
    (forall msg, outcome r = Panic msg ->
       exists g, lastEvent (trace r) = Some (Invoke (AddToScheme g)) /\
                 addToScheme e g = Some msg) /\
    (forall f, c = FlagsParsed f -> r = mainSetup f e p).
Proof.
  intros c e p r; subst r.
  destruct c as [f | | ]; unfold mainBootstrap, flagParse.
  - split; [ | split].
    3: { intros f' Hf; injection Hf as <-.
         unfold mainSetup, printVersion, logInfo, emit, bind, ret.
         destruct (setupAfterFlags f e p) as [[t q] [h | code | msg | ]];
           reflexivity. }
    + intros code Hc.
      setup_cases; injection Hc as <-;
        first
          [ right; left; split;
            [ reflexivity
            | right; exists f;
              split; [reflexivity | split; [assumption | reflexivity]] ]
          | right; right; split;
            [ reflexivity
            | exists f; eexists; split; [reflexivity | left; reflexivity] ]
          | right; right; split;
            [ reflexivity
            | exists f; eexists;
              split; [reflexivity | right; split; [reflexivity | eassumption]] ] ].
    + intros msg Hp.
      setup_cases; injection Hp as <-;
        eexists; (split; [reflexivity | assumption]).
  - split; [ | split; [intros msg H; discriminate H | intros f H; discriminate H]].
    intros code Hc. cbn in Hc. injection Hc as <-.
    right; left. split; [reflexivity | left; split; reflexivity].
  - split; [ | split; [intros msg H; discriminate H | intros f H; discriminate H]].
    intros code Hc. cbn in Hc. injection Hc as <-.
    left. repeat split.
Qed.

Lemma mainBootstrap_endings_witness :
  let e := withIdentitySources "" (Err "uname: operation not permitted") okEnv in
  let r := mainBootstrap (FlagsParsed defaultFlags) e initProc in
  outcome r = Exit 1%Z /\
  lastEvent (trace r) = Some (Log FatalLevel "uname: operation not permitted").
Proof.
  intros e r. split; [reflexivity | ].
  destruct (mainBootstrap_endings (FlagsParsed defaultFlags) e initProc)
    as [Hexit _].
  destruct (Hexit 1%Z eq_refl) as [[Hc _] | [[Hc _] | [_ _]]];
    [discriminate Hc | discriminate Hc | ].
  reflexivity.
Defined.



(** ** The sequencer *)

(** X5. Within an episode each registration step happens at most once and
    in a fixed order: the reporter is built (when one is configured) before
    the defaults are populated, the defaults are populated before the
    controllers are added to the manager, and the controllers are added
    before the reporter is started. The defaults are populated in every
    episode in which building the reporter did not fail. *)
Theorem run_registration_order :
  forall (name ns ver : string) (w : EpisodeEnv) (p : Proc),
    let r := run name ns ver w p in
    precedes isPopulateGlobals isAddToManager (trace r) /\
    precedes isAddToManager isStartReporting (trace r) /\
    (name <> "" -> precedes isNewReporter isPopulateGlobals (trace r)) /\
    occurrences isNewReporter (trace r) <= 1 /\
    occurrences isAddToManager (trace r) <= 1 /\
    occurrences isPopulateGlobals (trace r) =
      (match (if nonEmpty name then newReporterErr w else None) with
       | None => 1
       | Some _ => 0
       end).
Proof.
  intros name ns ver w p r; subst r.
  split; [ | split; [ | split; [intros Hname | ]]];
    try apply precedesb_sound;
    run_cases name w; try congruence; try reflexivity;
    repeat split; auto.
Qed.

Lemma run_registration_order_witness :
  let w := {| newReporterErr := None; populateGlobalsErr := None;
              addToManagerErr := None; managerStart := Some None;
              reporterDone := true |} in
  precedes isNewReporter isPopulateGlobals
    (trace (run "marketplace" "ns" "4.12" w initProc)).
Proof.
  intros w.
  destruct (run_registration_order "marketplace" "ns" "4.12" w initProc)
    as (_ & _ & Hrep & _).
  apply Hrep. discriminate.
Defined.

(** X6. When controller.AddToManager fails in an episode that got that
    far, the process exits with status 1 right after logging that error at
    fatal level: the reporter, though built, is never started, and the
    manager is never started. *)
Theorem add_to_manager_failure_is_fatal :
  forall (name ns ver : string) (w : EpisodeEnv) (p : Proc) (err : error),
    (if nonEmpty name then newReporterErr w else None) = None ->
    populateGlobalsErr w = None ->
    addToManagerErr w = Some err ->
    let r := run name ns ver w p in
    outcome r = Exit 1%Z /\
    lastEvent (trace r) = Some (Log FatalLevel err) /\
    occurrences isAddToManager (trace r) = 1 /\
    startedReporters (trace r) = [] /\
    occurrences isManagerStart (trace r) = 0.
Proof.
  intros name ns ver w p err Hnr Hpg Ham r; subst r.
  run_cases name w; try discriminate; injection Ham as ->; repeat split.
Qed.

Lemma add_to_manager_failure_is_fatal_witness :
  let w := {| newReporterErr := None; populateGlobalsErr := None;
              addToManagerErr := Some "no kind registered";
              managerStart := Some None; reporterDone := true |} in
  outcome (run "marketplace" "ns" "4.12" w initProc) = Exit 1%Z /\
  startedReporters (trace (run "marketplace" "ns" "4.12" w initProc)) = [].
Proof.
  intros w.
  destruct (add_to_manager_failure_is_fatal "marketplace" "ns" "4.12" w
              initProc "no kind registered" eq_refl eq_refl eq_refl)
    as (Hout & _ & _ & Hrep & _).
  split; [exact Hout | exact Hrep].
Defined.

(** X7. An episode never cancels the root context and never changes the
    logger's level. It writes [main]'s [err] variable only when a reporter
    is configured, and then with whatever status.NewReporter answered, so
    that a successful construction clears an error left there. *)
Theorem run_state_effects :
  forall (name ns ver : string) (w : EpisodeEnv) (p : Proc),
    let r := run name ns ver w p in
    rootCancelled (final r) = rootCancelled p /\
    occurrences isCancel (trace r) = 0 /\
    loggerLevel (final r) = loggerLevel p /\
    errVar (final r) = (if nonEmpty name then newReporterErr w else errVar p).
Proof.
  intros name ns ver w p r; subst r.
  run_cases name w; repeat split.
Qed.

(** X8. How an episode can end. The body returns exactly when the three
    registration steps succeed, mgr.Start returns (with or without error)
    and the reporter's completion signal comes. It ends the process exactly
    when a registration step fails, always with status 1 and a fatal log
    entry as the last thing done. Otherwise it stays parked, at mgr.Start or
    at the receive; it never panics. *)
Theorem run_outcomes :
  forall (name ns ver : string) (w : EpisodeEnv) (p : Proc),
    let r := run name ns ver w p in
    (outcome r = Ret tt <->
       registrationOk name w = true /\ managerStart w <> None /\
       signalComes name w = true) /\
    (forall c, outcome r = Exit c <-> c = 1%Z /\ registrationOk name w = false) /\
    (registrationOk name w = false ->
       exists msg, lastEvent (trace r) = Some (Log FatalLevel msg)) /\
    (outcome r = Block <->
       registrationOk name w = true /\
       (managerStart w = None \/ signalComes name w = false)) /\
    (forall msg, outcome r <> Panic msg).
Proof.
  intros name ns ver w p r; subst r.
  split; [ | split; [ | split; [ | split]]].
  - run_cases name w;
      (split;
       [ intros H; try discriminate H; repeat split; discriminate
       | intros (H1 & H2 & H3); congruence ]).
  - intros c. run_cases name w;
      (split;
       [ intros H; try discriminate H; injection H as <-; split; reflexivity
       | intros [-> H]; try discriminate H; reflexivity ]).
  - run_cases name w; intros H; try discriminate H; eexists; reflexivity.
  - run_cases name w;
      (split;
       [ intros H; try discriminate H;
         (split; [reflexivity | first [left; reflexivity | right; reflexivity]])
       | intros [H1 [H2 | H2]]; congruence ]).
  - intros msg. run_cases name w; discriminate.
Qed.

Lemma run_outcomes_witness :
  let w := {| newReporterErr := None; populateGlobalsErr := None;
              addToManagerErr := None; managerStart := Some None;
              reporterDone := false |} in
  outcome (run "marketplace" "ns" "4.12" w initProc) = Block /\
  outcome (run "" "ns" "4.12" w initProc) = Ret tt.
Proof.
  intros w. split.
  - destruct (run_outcomes "marketplace" "ns" "4.12" w initProc)
      as (_ & _ & _ & Hblock & _).
    apply Hblock. split; [reflexivity | right; reflexivity].
  - destruct (run_outcomes "" "ns" "4.12" w initProc) as (Hret & _).
    apply Hret. split; [reflexivity | split; [discriminate | reflexivity]].
Defined.

(** ** main and its deferred cancel *)

(** X9. [main] ends as its set-up does when the set-up exits or panics,
    having done nothing more, so a fatal set-up error never runs the
    deferred [cancel()]. After a set-up that succeeds, the election loop runs
    on what the set-up left, and when the loop returns or panics the
    deferred [cancel()] is the last thing [main] does, leaving the root
    context cancelled; when the loop ends the process or never returns, no
    [cancel()] is added. *)
Theorem main_deferred_cancel :
  forall (loop : Handoff -> M unit) (f : Flags) (e : Env) (p : Proc),
    let s := mainSetup f e p in
    let r := main loop f e p in
    (forall c, outcome s = Exit c ->
       outcome r = Exit c /\ trace r = trace s /\ final r = final s) /\
    (forall msg, outcome s = Panic msg ->
       outcome r = Panic msg /\ trace r = trace s /\ final r = final s) /\
    (forall h, outcome s = Ret h ->
       let l := loop h (final s) in
       outcome r = outcome l /\
       match outcome l with
       | Ret _ | Panic _ =>
           trace r = trace s ++ trace l ++ [Invoke Cancel] /\
           rootCancelled (final r) = true /\
           loggerLevel (final r) = loggerLevel (final l) /\
           errVar (final r) = errVar (final l)
       | Exit _ | Block =>
           trace r = trace s ++ trace l /\ final r = final l
       end).
Proof.
  intros loop f e p s r; subst s r. unfold main, bind, deferring.
  destruct (mainSetup f e p) as [[t p'] [h | c | msg | ]];
    cbn [outcome trace final fst snd].
  - split; [intros c Hc; discriminate Hc | ].
    split; [intros msg Hm; discriminate Hm | ].
    intros h' Hh. injection Hh as <-.
    destruct (loop h p') as [[t' p''] [[] | c | msg | ]];
      cbn [outcome trace final fst snd cancel];
      repeat split.
  - split; [intros c' Hc; injection Hc as <-; repeat split | ].
    split; [intros msg Hm; discriminate Hm | intros h Hh; discriminate Hh].
  - split; [intros c Hc; discriminate Hc | ].
    split; [intros m' Hm; injection Hm as <-; repeat split
           | intros h Hh; discriminate Hh].
  - split; [intros c Hc; discriminate Hc | ].
    split; [intros msg Hm; discriminate Hm | intros h Hh; discriminate Hh].
Qed.

(** X9, with a loop that at once reports the loss of leadership. *)
Lemma main_deferred_cancel_witness :
  let loop := fun h : Handoff => OnStoppedLeading (Identity (lec h)) in
  let r := main loop defaultFlags okEnv initProc in
  outcome r = Ret tt /\
  lastEvent (trace r) = Some (Invoke Cancel) /\
  occurrences isCancel (trace r) = 2 /\
  rootCancelled (final r) = true.
Proof.
  intros loop r.
  destruct (main_deferred_cancel loop defaultFlags okEnv initProc)
    as (_ & _ & Hrun).
  destruct (Hrun _ eq_refl) as (Hout & _ & Hcancelled & _).
  split; [exact Hout | split; [reflexivity | split; [reflexivity | exact Hcancelled]]].
Defined.

(** * The cluster-operator end-to-end specs *)

Lemma ObjectReference_eqb_eq (a b : E2E.ObjectReference) :
  E2E.ObjectReference_eqb a b = true <-> a = b.
Proof.
  destruct a as [g r n m], b as [g' r' n' m'].
  unfold E2E.ObjectReference_eqb; cbn.
  rewrite !andb_true_iff, !String.eqb_eq.
  split; [intros [[[-> ->] ->] ->]; reflexivity | ].
  intros H; injection H as -> -> -> ->. repeat split.
Qed.

Lemma existsb_ObjectReference (want : E2E.ObjectReference)
      (l : list E2E.ObjectReference) :
  existsb (E2E.ObjectReference_eqb want) l = true <-> In want l.
Proof.
  rewrite existsb_exists. split.
  - intros (x & Hin & Heq). apply ObjectReference_eqb_eq in Heq. now subst.
  - intros Hin. exists want. split; [exact Hin | now apply ObjectReference_eqb_eq].
Qed.

Section SpecFacts.

Import E2E.

Variables (OperatorUpgradeable OperatorProgressing
           OperatorAvailable OperatorDegraded : string).
Variables (ConditionTrue ConditionFalse : string).
Variable GroupName : string.

(** X10. What the status-conditions spec accepts, the four condition types
    being different strings (as keys of one map literal must be). It fails
    when the cluster operator cannot be fetched. Otherwise it passes exactly
    when every reported condition of type Upgradeable or Available has
    status True, every one of type Progressing or Degraded has status False,
    and every condition of any other type has the empty status, which is
    what indexing the map with an absent key gives. *)
Theorem conditions_spec_accepts :
  NoDup [OperatorUpgradeable; OperatorProgressing;
         OperatorAvailable; OperatorDegraded] ->
  (forall err, conditionsSpec OperatorUpgradeable OperatorProgressing
       OperatorAvailable OperatorDegraded ConditionTrue ConditionFalse
       (Err err) = false) /\
  (forall co,
     conditionsSpec OperatorUpgradeable OperatorProgressing
       OperatorAvailable OperatorDegraded ConditionTrue ConditionFalse
       (Ok co) = true <->
     Forall (fun c =>
               (Type_ c = OperatorUpgradeable -> Status c = ConditionTrue) /\
               (Type_ c = OperatorProgressing -> Status c = ConditionFalse) /\
               (Type_ c = OperatorAvailable -> Status c = ConditionTrue) /\
               (Type_ c = OperatorDegraded -> Status c = ConditionFalse) /\
               (~ In (Type_ c) [OperatorUpgradeable; OperatorProgressing;
                                OperatorAvailable; OperatorDegraded] ->
                Status c = ""))
            (Conditions co)).
Proof.
  intros Hnd. split; [reflexivity | ].
  intros co. unfold conditionsSpec.
  rewrite forallb_forall, Forall_forall.
  assert (Hup : OperatorUpgradeable <> OperatorProgressing /\
                OperatorUpgradeable <> OperatorAvailable /\
                OperatorUpgradeable <> OperatorDegraded /\
                OperatorProgressing <> OperatorAvailable /\
                OperatorProgressing <> OperatorDegraded /\
                OperatorAvailable <> OperatorDegraded).
  { inversion Hnd as [|? ? H1 Hnd1]; subst.
    inversion Hnd1 as [|? ? H2 Hnd2]; subst.
    inversion Hnd2 as [|? ? H3 _]; subst.
    cbn in H1, H2, H3. repeat split; intros Heq; subst; tauto. }
  destruct Hup as (H12 & H13 & H14 & H23 & H24 & H34).
  split; intros H c Hc; specialize (H c Hc).
  - apply String.eqb_eq in H. unfold expectedTypeStatus, mapIndex in H.
    destruct (String.eqb_spec OperatorUpgradeable (Type_ c)) as [E1 | N1];
      [repeat split; intros; subst; try congruence; cbn in *; tauto | ].
    destruct (String.eqb_spec OperatorProgressing (Type_ c)) as [E2 | N2];
      [repeat split; intros; subst; try congruence; cbn in *; tauto | ].
    destruct (String.eqb_spec OperatorAvailable (Type_ c)) as [E3 | N3];
      [repeat split; intros; subst; try congruence; cbn in *; tauto | ].
    destruct (String.eqb_spec OperatorDegraded (Type_ c)) as [E4 | N4];
      [repeat split; intros; subst; try congruence; cbn in *; tauto | ].
    repeat split; intros; subst; congruence.
  - destruct H as (Hu & Hp & Ha & Hd & Ho).
    apply String.eqb_eq. unfold expectedTypeStatus, mapIndex.
    destruct (String.eqb_spec OperatorUpgradeable (Type_ c)) as [E1 | N1];
      [now apply Hu | ].
    destruct (String.eqb_spec OperatorProgressing (Type_ c)) as [E2 | N2];
      [now apply Hp | ].
    destruct (String.eqb_spec OperatorAvailable (Type_ c)) as [E3 | N3];
      [now apply Ha | ].
    destruct (String.eqb_spec OperatorDegraded (Type_ c)) as [E4 | N4];
      [now apply Hd | ].
    apply Ho. cbn. intuition congruence.
Qed.

(** X11. The status-conditions spec asks nothing of which conditions are
    reported: it passes on a cluster operator without conditions, and a
    status it accepts stays accepted when conditions are removed, repeated
    or reordered. *)
Theorem conditions_spec_ignores_absence :
  (forall co,
     Conditions co = [] ->
     conditionsSpec OperatorUpgradeable OperatorProgressing
       OperatorAvailable OperatorDegraded ConditionTrue ConditionFalse
       (Ok co) = true) /\
  (forall co co',
     incl (Conditions co') (Conditions co) ->
     conditionsSpec OperatorUpgradeable OperatorProgressing
       OperatorAvailable OperatorDegraded ConditionTrue ConditionFalse
       (Ok co) = true ->
     conditionsSpec OperatorUpgradeable OperatorProgressing
       OperatorAvailable OperatorDegraded ConditionTrue ConditionFalse
       (Ok co') = true).
Proof.
  split.
  - intros co Hempty. unfold conditionsSpec. now rewrite Hempty.
  - intros co co' Hincl. unfold conditionsSpec.
    rewrite !forallb_forall. intros H c Hc. apply H, Hincl, Hc.
Qed.

(** X12. The related-objects spec fails when the cluster operator cannot
    be fetched, and otherwise passes exactly when the related objects hold
    both the reference to the namespace openshift-marketplace and the
    reference to the catalog sources of that namespace, each with its other
    fields empty; position and further entries do not matter. *)
Theorem related_objects_spec_accepts :
  (forall err, relatedObjectsSpec GroupName (Err err) = false) /\
  (forall co,
     relatedObjectsSpec GroupName (Ok co) = true <->
     In {| Group := ""; Resource := "namespaces";
           Namespace := ""; Name := "openshift-marketplace" |}
        (RelatedObjects co) /\
     In {| Group := GroupName; Resource := "catalogsources";
           Namespace := "openshift-marketplace"; Name := "" |}
        (RelatedObjects co)) /\
  (forall co co',
     incl (RelatedObjects co) (RelatedObjects co') ->
     relatedObjectsSpec GroupName (Ok co) = true ->
     relatedObjectsSpec GroupName (Ok co') = true).
Proof.
  assert (Hiff : forall co,
             relatedObjectsSpec GroupName (Ok co) = true <->
             In {| Group := ""; Resource := "namespaces";
                   Namespace := ""; Name := "openshift-marketplace" |}
                (RelatedObjects co) /\
             In {| Group := GroupName; Resource := "catalogsources";
                   Namespace := "openshift-marketplace"; Name := "" |}
                (RelatedObjects co)).
  { intros co. unfold relatedObjectsSpec, expectedRelatedObjects.
    cbn [forallb]. rewrite !andb_true_iff, !existsb_ObjectReference. tauto. }
  split; [reflexivity | split; [exact Hiff | ]].
  intros co co' Hincl Hpass. apply Hiff. apply Hiff in Hpass.
  destruct Hpass as [H1 H2]. split; apply Hincl; assumption.
Qed.

End SpecFacts.

Lemma conditions_spec_accepts_witness :
  NoDup ["Upgradeable"; "Progressing"; "Available"; "Degraded"] /\
  E2E.conditionsSpec "Upgradeable" "Progressing" "Available" "Degraded"
    "True" "False"
    (Ok {| E2E.Conditions :=
             [ {| E2E.Type_ := "Available"; E2E.Status := "True" |};
               {| E2E.Type_ := "Degraded"; E2E.Status := "False" |} ];
           E2E.RelatedObjects := [] |}) = true.
Proof.
  assert (Hnd : NoDup ["Upgradeable"; "Progressing"; "Available"; "Degraded"]).
  { repeat constructor; cbn; intuition discriminate. }
  split; [exact Hnd | ].
  destruct (conditions_spec_accepts "Upgradeable" "Progressing" "Available"
              "Degraded" "True" "False" Hnd) as [_ Hiff].
  apply Hiff. cbn.
  repeat constructor; intros H; try reflexivity; try discriminate H;
    exfalso; apply H; cbn; tauto.
Defined.

Lemma conditions_spec_ignores_absence_witness :
  let co := {| E2E.Conditions :=
                 [ {| E2E.Type_ := "Available"; E2E.Status := "True" |};
                   {| E2E.Type_ := "Degraded"; E2E.Status := "False" |} ];
               E2E.RelatedObjects := [] |} in
  let co' := {| E2E.Conditions :=
                  [ {| E2E.Type_ := "Degraded"; E2E.Status := "False" |} ];
                E2E.RelatedObjects := [] |} in
  E2E.conditionsSpec "Upgradeable" "Progressing" "Available" "Degraded"
    "True" "False" (Ok co') = true.
Proof.
  intros co co'.
  destruct (conditions_spec_ignores_absence "Upgradeable" "Progressing"
              "Available" "Degraded" "True" "False") as [_ Hincl].
  apply (Hincl co co'); [ | reflexivity].
  intros c Hc. cbn in Hc |- *. tauto.
Defined.

Lemma related_objects_spec_accepts_witness :
  let co := {| E2E.Conditions := [];
               E2E.RelatedObjects :=
                 [ {| E2E.Group := "operators.coreos.com";
                      E2E.Resource := "catalogsources";
                      E2E.Namespace := "openshift-marketplace";
                      E2E.Name := "" |};
                   {| E2E.Group := ""; E2E.Resource := "namespaces";
                      E2E.Namespace := ""; E2E.Name := "openshift-marketplace" |} ] |} in
  E2E.relatedObjectsSpec "operators.coreos.com" (Ok co) = true.
Proof.
  intros co.
  destruct (related_objects_spec_accepts "operators.coreos.com") as (_ & Hiff & _).
  apply Hiff. cbn. tauto.
Defined.

(** * The callbacks on top of the set-up *)

Lemma mainSetup_watchNamespace :
  forall (f : Flags) (e : Env) (p : Proc) (h : Handoff),
    outcome (mainSetup f e p) = Ret h ->
    getWatchNamespace e = Ok (watchNamespace h).
Proof.
  intros f e p h H. setup_cases; injection H as <-; reflexivity.
Qed.

(** X13. An episode started through the callbacks of [main] first logs
    that this identity became leader, and builds its status reporter, when
    the clusterOperatorName flag is not empty, for the namespace that
    GetWatchNamespace returned (not the leader-election namespace), under the
    flag's name and with the RELEASE_VERSION of the environment; with an
    empty flag it builds none. *)
Theorem episode_uses_setup_values :
  forall (f : Flags) (e : Env) (p q : Proc) (h : Handoff) (w : EpisodeEnv),
    outcome (mainSetup f e p) = Ret h ->
    let r := onStartedLeading (callbacks f e h) w q in
    hd_error (trace r) =
      Some (Log InfoLevel (Sprintf "became leader: " (Identity (lec h)) "")) /\
    exists ns,
      getWatchNamespace e = Ok ns /\
      calls (filter isNewReporter (trace r)) =
        (if nonEmpty (clusterOperatorName f)
         then [NewReporter ns (clusterOperatorName f) (RELEASE_VERSION e)]
         else []).
Proof.
  intros f e p q h w H r; subst r.
  pose proof (mainSetup_watchNamespace f e p h H) as Hns.
  unfold callbacks, onStartedLeading.
  destruct (clusterOperatorName f) as [|c0 name];
    destruct w as [[nr|] [pg|] [am|] [[ms|]|] [|]];
    (split; [reflexivity | exists (watchNamespace h); split; [exact Hns | reflexivity]]).
Qed.

Lemma episode_uses_setup_values_witness :
  let f := {| clusterOperatorName := "marketplace"; defaultsDir := "";
              version := false; tlsKeyPath := ""; tlsCertPath := "";
              leaderElectionNamespace := "openshift-marketplace";
              loglvl := "info" |} in
  let e := withIdentitySources "pod-A" (Ok "host-A") okEnv in
  let w := {| newReporterErr := None; populateGlobalsErr := None;
              addToManagerErr := None; managerStart := Some None;
              reporterDone := true |} in
  exists h,
    outcome (mainSetup f e initProc) = Ret h /\
    hd_error (trace (onStartedLeading (callbacks f e h) w initProc)) =
      Some (Log InfoLevel "became leader: pod-A").
Proof.
  intros f e w. eexists. split; [reflexivity | ].
  apply (episode_uses_setup_values f e initProc initProc _ w eq_refl).
Defined.

(** X14. Of the three callbacks of [main] only the stopped-leading one
    touches the root context: every call of it logs the warning that the
    election was lost for this identity, then calls [cancel()], once, and
    returns with the context cancelled; a second call leaves the state as
    the first left it. A started episode and a new-leader notice leave the root
    context as it is, and none of the three changes the logger's level. *)
Theorem callbacks_and_root_context :
  forall (f : Flags) (e : Env) (h : Handoff) (w : EpisodeEnv)
         (identity : string) (p : Proc),
    let cb := callbacks f e h in
    let stop := onStoppedLeading cb p in
    trace stop =
      [Log WarnLevel
         (Sprintf "leader election lost for " (Identity (lec h)) " identity");
       Invoke Cancel] /\
    outcome stop = Ret tt /\
    rootCancelled (final stop) = true /\
    occurrences isCancel (trace stop) = 1 /\
    final (onStoppedLeading cb (final stop)) = final stop /\
    errVar (final stop) = errVar p /\
    rootCancelled (final (onStartedLeading cb w p)) = rootCancelled p /\
    occurrences isCancel (trace (onStartedLeading cb w p)) = 0 /\
    rootCancelled (final (onNewLeader cb identity p)) = rootCancelled p /\
    occurrences isCancel (trace (onNewLeader cb identity p)) = 0 /\
    loggerLevel (final stop) = loggerLevel p /\
    loggerLevel (final (onStartedLeading cb w p)) = loggerLevel p /\
    loggerLevel (final (onNewLeader cb identity p)) = loggerLevel p.
Proof.
  intros f e h w identity p cb stop; subst cb stop.
  unfold callbacks, onStoppedLeading, onStartedLeading, onNewLeader.
  assert (Hnew : forall id,
             final (OnNewLeader id identity p) = p /\
             occurrences isCancel (trace (OnNewLeader id identity p)) = 0).
  { intros id. unfold OnNewLeader.
    destruct (identity =? id)%string; split; reflexivity. }
  destruct (Hnew (Identity (lec h))) as [Hfinal Hnone].
  rewrite Hfinal, Hnone.
  split; [reflexivity | split; [reflexivity | ]].
  split; [reflexivity | split; [reflexivity | split; [reflexivity | ]]].
  split; [reflexivity | ].
  destruct (clusterOperatorName f) as [|c0 name];
    destruct w as [[nr|] [pg|] [am|] [[ms|]|] [|]]; repeat split.
Qed.
